(** * IControls.h: button, switch and bitmap-text controls of IPlug/IGraphics

    A shallow embedding of [src/IPlug/IGraphics/IControls.h].

    - C++ [float] and [double] values are IEEE-754 binary32 and binary64
      numbers, represented by the Standard Library's [spec_float] and its
      correctly rounded operations ([SFadd], [SFsub], [SFdiv]).
    - [uint32_t] and [int] are integers in [Z] with the wrap-around of the
      unsigned arithmetic written out.
    - A constructor or method either completes, stops at a failed
      [assert], or has no behaviour defined by C++ (a floating-point value
      converted to an integer type that cannot hold it).
    - The graphics context records the drawing calls it receives, in
      order. *)

From Stdlib Require Import ZArith Bool List String Lia.
From Stdlib Require Import Floats.SpecFloat.
Import ListNotations.

Local Open Scope Z_scope.

(* ===================================================================== *)
(** ** IEEE-754 arithmetic as the C++ expressions use it *)
(* ===================================================================== *)

Module FP.

(** [float]: binary32, 24 bits of precision. *)
Definition float := spec_float.
(** [double]: binary64, 53 bits of precision. *)
Definition double := spec_float.

Definition prec32 : Z := 24.
Definition emax32 : Z := 128.
Definition prec64 : Z := 53.
Definition emax64 : Z := 1024.

(** Round a floating-point value to the format [(prec, emax)], to
    nearest, ties to even. *)
Definition round_to (prec emax : Z) (x : spec_float) : spec_float :=
  match x with
  | S754_finite s m e => binary_round prec emax s m e
  | _ => x
  end.

(** Implicit promotion [float -> double] (always exact). *)
Definition float_to_double (x : float) : double := round_to prec64 emax64 x.
(** Conversion [double -> float], as in [const float step = <double>]. *)
Definition double_to_float (x : double) : float := round_to prec32 emax32 x.

(** [float(n)] for an unsigned integer [n]. *)
Definition uint32_to_float (n : Z) : float :=
  binary_normalize prec32 emax32 n 0 false.
(** [double(n)] for an integer [n]. *)
Definition Z_to_double (n : Z) : double :=
  binary_normalize prec64 emax64 n 0 false.

(** The literals [1.f] and [1.]. *)
Definition one_f : float := SFone prec32 emax32.
Definition one_d : double := SFone prec64 emax64.
Definition zero_d : double := S754_zero false.

Definition fdiv32 : float -> float -> float := SFdiv prec32 emax32.
Definition fdiv64 : double -> double -> double := SFdiv prec64 emax64.
Definition fadd64 : double -> double -> double := SFadd prec64 emax64.
Definition fsub64 : double -> double -> double := SFsub prec64 emax64.

(** Contextual conversion to [bool]: zero of either sign is [false],
    everything else, NaN included, is [true]. *)
Definition double_to_bool (x : double) : bool :=
  match x with
  | S754_zero _ => false
  | _ => true
  end.

(** [bool -> double]: [false] is [0.0] and [true] is [1.0]. *)
Definition bool_to_double (b : bool) : double :=
  if b then one_d else zero_d.

(** [fmod(x, y)] of <cmath>: the remainder [x - n*y] with [n] the
    quotient [x/y] truncated toward zero.  It carries the sign of [x],
    is exact, and is NaN when [x] is infinite or [y] is zero. *)
Definition fmod (x y : double) : double :=
  match x, y with
  | S754_nan, _ | _, S754_nan => S754_nan
  | S754_infinity _, _ => S754_nan
  | _, S754_zero _ => S754_nan
  | S754_zero _, _ => x
  | S754_finite _ _ _, S754_infinity _ => x
  | S754_finite sx mx ex, S754_finite _ my ey =>
      let ez := Z.min ex ey in
      let ax := Zpos (fst (shl_align mx ex ez)) in
      let ay := Zpos (fst (shl_align my ey ez)) in
      binary_normalize prec64 emax64 (cond_Zopp sx (Z.rem ax ay)) ez sx
  end.

(** The integer part of a finite value, truncated toward zero; [None]
    for infinities and NaN. *)
Definition trunc (x : spec_float) : option Z :=
  match x with
  | S754_zero _ => Some 0
  | S754_finite s m e =>
      Some (cond_Zopp s (match e with
                         | Z0 => Zpos m
                         | Zpos _ => Z.shiftl (Zpos m) e
                         | Zneg _ => Z.shiftr (Zpos m) (- e)
                         end))
  | _ => None
  end.

(** Floating-integral conversion to a [w]-bit integer type with values
    in [[lo, hi]]: the value is truncated; when the truncated value is
    not in the destination type the behaviour is undefined ([None]). *)
Definition to_integral (lo hi : Z) (x : spec_float) : option Z :=
  match trunc x with
  | Some n => if (lo <=? n) && (n <=? hi) then Some n else None
  | None => None
  end.

Definition UINT32_MAX : Z := 4294967295.
Definition INT_MIN : Z := -2147483648.
Definition INT_MAX : Z := 2147483647.

(** [(uint32_t) x] *)
Definition double_to_uint32 : double -> option Z := to_integral 0 UINT32_MAX.
(** [int n = x] *)
Definition double_to_int : double -> option Z := to_integral INT_MIN INT_MAX.

(** [0 <= x && x <= 1]; false for NaN. *)
Definition in_unit_interval (x : double) : bool :=
  SFleb zero_d x && SFleb x one_d.

(** Well-formed binary64 and binary32 values. *)
Definition is_double (x : spec_float) : bool := valid_binary prec64 emax64 x.
Definition is_float (x : spec_float) : bool := valid_binary prec32 emax32 x.

End FP.

Import FP.

(* ===================================================================== *)
(** ** Outcomes of constructors and methods *)
(* ===================================================================== *)

Inductive outcome (A : Type) : Type :=
| Done (a : A)        (* ran to completion *)
| AssertionFailed     (* an [assert] did not hold *)
| Undefined.          (* no behaviour defined by C++ *)

Arguments Done {A} a.
Arguments AssertionFailed {A}.
Arguments Undefined {A}.

Definition obind {A B : Type} (c : outcome A) (k : A -> outcome B) : outcome B :=
  match c with
  | Done a => k a
  | AssertionFailed => AssertionFailed
  | Undefined => Undefined
  end.

Definition of_option {A : Type} (o : option A) : outcome A :=
  match o with
  | Some a => Done a
  | None => Undefined
  end.

(** [assert(b);] *)
Definition assert (b : bool) : outcome unit :=
  if b then Done tt else AssertionFailed.

Declare Scope outcome_scope.
Delimit Scope outcome_scope with outcome.
Notation "'let*' x ':=' c 'in' k" := (obind c (fun x => k))
  (at level 10, x name, c at level 100, k at level 200) : outcome_scope.

(* ===================================================================== *)
(** ** What the header takes from the rest of IGraphics *)
(* ===================================================================== *)

(** [EDirection] of IGraphicsConstants.h; the header names these two
    enumerators. *)
Inductive EDirection : Type := kVertical | kHorizontal.

Definition EDirection_eqb (a b : EDirection) : bool :=
  match a, b with
  | kVertical, kVertical | kHorizontal, kHorizontal => true
  | _, _ => false
  end.

(** Modelled from the spec: [kNoParameter] (IPlugConstants.h, outside
    src) is the parameter index of a control bound to zero parameters; it
    is the index that the constructors' test [paramIdx > -1] rejects. *)
Definition kNoParameter : Z := -1.

(** The structures and their geometry come from IGraphicsStructs.h, which
    is outside src: they are an interface of the model. *)
Class Toolkit : Type := {
  IRECT : Type;
  IColor : Type;
  IBitmap : Type;
  IText : Type;
  IBlend : Type;
  EBlendType : Type;
  IMouseMod : Type;
  (** [IRECT()] *)
  IRECT_default : IRECT;
  (** [IBlend()] *)
  IBlend_default : IBlend;
  (** [r.SubRectHorizontal(numSlices, sliceIdx)] *)
  SubRectHorizontal : IRECT -> Z -> Z -> IRECT;
  (** [r.SubRectVertical(numSlices, sliceIdx)] *)
  SubRectVertical : IRECT -> Z -> Z -> IRECT;
  (** [r.GetPadded(padding)] *)
  GetPadded : IRECT -> Z -> IRECT
}.

(** Modelled from the spec: the host plugin object, to which the controls
    "delegate parameter range/automation semantics".  [IParam::GetRange]
    (IPlugParameter.h, outside src) yields the extent of a parameter as a
    [double]; the button constructor converts it with a cast to
    [uint32_t]. *)
Record IParam : Type := { GetRange : double }.

Record IPlugBaseGraphics : Type := { mParams : list IParam }.

(** [plug.GetParam(idx)]: the parameter object, or no object when the
    index names none. *)
Definition GetParam (plug : IPlugBaseGraphics) (idx : Z) : option IParam :=
  if idx <? 0 then None else nth_error (mParams plug) (Z.to_nat idx).

Section Graphics.
Context {tk : Toolkit}.

(** The calls a control makes on the graphics context. *)
Inductive DrawCall : Type :=
| FillRect (color : IColor) (rect : IRECT)
| DrawBitmapedText (bitmap : IBitmap) (rect : IRECT) (text : IText)
    (blend : IBlend) (str : string) (vCentre multiLine : bool)
    (charWidth charHeight charOffset : Z).

(** The graphics context: the calls received so far, oldest first. *)
Record IGraphics : Type := { calls : list DrawCall }.

Definition issue (c : DrawCall) (g : IGraphics) : IGraphics :=
  {| calls := calls g ++ [c] |}.

(** The type of [actionFunc], a [std::function] from a pointer to the
    graphics context to [void]; [None] is [nullptr].  The
    function receives the graphics context only, so its effect is a
    transformation of the context. *)
Definition ActionFunc : Type := option (IGraphics -> IGraphics).

(** A method body runs on the object [this] and the graphics context. *)
Definition method (C A : Type) : Type :=
  C * IGraphics -> outcome (A * (C * IGraphics)).

Definition ret {C A : Type} (a : A) : method C A :=
  fun s => Done (a, s).

Definition bind {C A B : Type} (m : method C A) (k : A -> method C B)
  : method C B :=
  fun s => obind (m s) (fun '(a, s') => k a s').

Definition get_this {C : Type} : method C C :=
  fun s => Done (fst s, s).

Definition modify_this {C : Type} (f : C -> C) : method C unit :=
  fun s => Done (tt, (f (fst s), snd s)).

Definition modify_graphics {C : Type} (f : IGraphics -> IGraphics)
  : method C unit :=
  fun s => Done (tt, (fst s, f (snd s))).

Definition lift_option {C A : Type} (o : option A) : method C A :=
  fun s => obind (of_option o) (fun a => Done (a, s)).

(** [graphics.FillRect(color, rect)] *)
Definition call_FillRect {C : Type} (color : IColor) (rect : IRECT)
  : method C unit :=
  modify_graphics (issue (FillRect color rect)).

(** [if (f != nullptr) f(GetGUI());] *)
Definition call_action {C : Type} (f : ActionFunc) : method C unit :=
  match f with
  | Some act => modify_graphics act
  | None => ret tt
  end.

End Graphics.

Declare Scope method_scope.
Delimit Scope method_scope with method.
Notation "x <- c ;; k" := (bind c (fun x => k))
  (at level 61, c at next level, right associativity) : method_scope.
Notation "c ;; k" := (bind c (fun _ => k))
  (at level 61, right associativity) : method_scope.

(* ===================================================================== *)
(** ** Base classes declared in IControl.h *)
(* ===================================================================== *)

Module IControl.
Section Defs.
Context {tk : Toolkit}.

(** Modelled from the spec: the base class [IControl] (IControl.h, outside
    src), "a UI widget bound to zero or one automatable parameter": the
    members that this header reads or writes. *)
Record t : Type := {
  mPlug : IPlugBaseGraphics;
  mRECT : IRECT;
  mParamIdx : Z;
  mActionFunc : ActionFunc;
  mValue : double;
  mDirty : bool;
  mBlend : IBlend
}.

(** Modelled from the spec: the constructor
    [IControl(plug, rect, paramIdx = kNoParameter, actionFunc = nullptr)];
    it stores its arguments. *)
Definition new (plug : IPlugBaseGraphics) (rect : IRECT) (paramIdx : Z)
  (actionFunc : ActionFunc) : t :=
  {| mPlug := plug; mRECT := rect; mParamIdx := paramIdx;
     mActionFunc := actionFunc; mValue := zero_d; mDirty := true;
     mBlend := IBlend_default |}.

Definition set_mValue (v : double) (c : t) : t :=
  {| mPlug := mPlug c; mRECT := mRECT c; mParamIdx := mParamIdx c;
     mActionFunc := mActionFunc c; mValue := v; mDirty := mDirty c;
     mBlend := mBlend c |}.

Definition set_mDirty (d : bool) (c : t) : t :=
  {| mPlug := mPlug c; mRECT := mRECT c; mParamIdx := mParamIdx c;
     mActionFunc := mActionFunc c; mValue := mValue c; mDirty := d;
     mBlend := mBlend c |}.

(** Modelled from the spec: [SetDirty()] (IControl.cpp, outside src) marks
    the control as needing a redraw. *)
Definition SetDirty (c : t) : t := set_mDirty true c.

End Defs.
End IControl.

Module ITextControl.
Section Defs.
Context {tk : Toolkit}.

(** Modelled from the spec: [ITextControl] (IControl.h, outside src), a
    control bound to no parameter that holds a text style and a string. *)
Record t : Type := {
  base : IControl.t;
  mText : IText;
  mStr : string
}.

(** Modelled from the spec: [ITextControl(plug, rect, text, str)]. *)
Definition new (plug : IPlugBaseGraphics) (rect : IRECT) (text : IText)
  (str : string) : t :=
  {| base := IControl.new plug rect kNoParameter None;
     mText := text; mStr := str |}.

(** [mStr.Set(str)] *)
Definition Set_mStr (str : string) (c : t) : t :=
  {| base := base c; mText := mText c; mStr := str |}.

End Defs.
End ITextControl.

(* ===================================================================== *)
(** ** IControls.h *)
(* ===================================================================== *)

Module IKnobControlBase.
Section Defs.
Context {tk : Toolkit}.

Record t : Type := {
  base : IControl.t;
  mDirection : EDirection;
  mGearing : double
}.

Definition new (plug : IPlugBaseGraphics) (rect : IRECT) (paramIdx : Z)
  (direction : EDirection) (gearing : double) : t :=
  {| base := IControl.new plug rect paramIdx None;
     mDirection := direction;
     mGearing := gearing |}.

Definition SetGearing (gearing : double) (c : t) : t :=
  {| base := base c; mDirection := mDirection c; mGearing := gearing |}.

(** [OnMouseDrag] and [OnMouseWheel] are declared by the header and
    defined in IControls.cpp, outside src: they have no model here. *)

End Defs.
End IKnobControlBase.

(** [IVKnobControl] adds colours, angles and radii to [IKnobControlBase];
    the header only declares its constructor and its [Draw]. *)

Module IButtonControlBase.
Section Defs.
Context {tk : Toolkit}.

Record t : Type := {
  base : IControl.t;
  mNumStates : Z
}.

Definition upd_base (f : IControl.t -> IControl.t) (c : t) : t :=
  {| base := f (base c); mNumStates := mNumStates c |}.

(** The [uint32_t] sum [a + b]. *)
Definition uint32_add (a b : Z) : Z := (a + b) mod 2 ^ 32.

Local Open Scope outcome_scope.

(** The constructor.  [numStates] is the [uint32_t] argument (default 2). *)
Definition new (plug : IPlugBaseGraphics) (rect : IRECT) (paramIdx : Z)
  (actionFunc : ActionFunc) (numStates : Z) : outcome t :=
  let base := IControl.new plug rect paramIdx actionFunc in
  let* n :=
    (if paramIdx >? -1 then
       let* param := of_option (GetParam plug paramIdx) in
       let* range := of_option (double_to_uint32 (GetRange param)) in
       Done (uint32_add range 1)
     else
       Done numStates) in
  let* _ := assert (n >? 1) in
  Done {| base := base; mNumStates := n |}.

Local Open Scope method_scope.

Definition OnMouseDown (x y : float) (mod_ : IMouseMod) : method t unit :=
  this <- get_this ;;
  (if mNumStates this =? 2 then
     modify_this (upd_base (IControl.set_mValue
       (bool_to_double (negb (double_to_bool (IControl.mValue (base this)))))))
   else
     let step : float :=
       double_to_float
         (fsub64 (float_to_double
                    (fdiv32 one_f (uint32_to_float (mNumStates this))))
                 one_d) in
     modify_this (upd_base (fun c =>
       IControl.set_mValue (fadd64 (IControl.mValue c) (float_to_double step)) c)) ;;
     modify_this (upd_base (fun c =>
       IControl.set_mValue (fmod one_d (IControl.mValue c)) c))) ;;
  call_action (IControl.mActionFunc (base this)) ;;
  modify_this (upd_base IControl.SetDirty).

End Defs.
End IButtonControlBase.

Module IVSwitchControl.
Section Defs.
Context {tk : Toolkit}.

Record t : Type := {
  base : IButtonControlBase.t;
  mStep : float;
  mFGColor : IColor;
  mBGColor : IColor;
  mDirection : EDirection
}.

Definition control (c : t) : IControl.t := IButtonControlBase.base (base c).

Local Open Scope outcome_scope.

Definition new (plug : IPlugBaseGraphics) (rect : IRECT) (paramIdx : Z)
  (actionFunc : ActionFunc) (fgColor bgColor : IColor) (numStates : Z)
  (dir : EDirection) : outcome t :=
  let* b := IButtonControlBase.new plug rect paramIdx actionFunc numStates in
  Done {| base := b;
          mFGColor := fgColor;
          mBGColor := bgColor;
          mDirection := dir;
          mStep :=
            double_to_float
              (fsub64 (float_to_double
                         (fdiv32 one_f
                            (uint32_to_float (IButtonControlBase.mNumStates b))))
                      one_d) |}.

Definition upd_base (f : IButtonControlBase.t -> IButtonControlBase.t)
  (c : t) : t :=
  {| base := f (base c); mStep := mStep c; mFGColor := mFGColor c;
     mBGColor := mBGColor c; mDirection := mDirection c |}.

(** The control with its value replaced, as the host does when the
    parameter is automated. *)
Definition set_mValue (v : double) (c : t) : t :=
  upd_base (IButtonControlBase.upd_base (IControl.set_mValue v)) c.

(** [const int state = mValue / mStep;] *)
Definition Draw_state (this : t) : option Z :=
  double_to_int
    (fdiv64 (IControl.mValue (control this)) (float_to_double (mStep this))).

Local Open Scope method_scope.

Definition Draw : method t unit :=
  this <- get_this ;;
  state <- lift_option (Draw_state this) ;;
  call_FillRect (mBGColor this) (IControl.mRECT (control this)) ;;
  let handle := IRECT_default in
  let handle :=
    if EDirection_eqb (mDirection this) kHorizontal then
      SubRectHorizontal (IControl.mRECT (control this))
        (IButtonControlBase.mNumStates (base this)) state
    else handle in
  let handle :=
    if EDirection_eqb (mDirection this) kVertical then
      SubRectVertical (IControl.mRECT (control this))
        (IButtonControlBase.mNumStates (base this)) state
    else handle in
  let handle := GetPadded handle (-10) in
  call_FillRect (mFGColor this) handle.

(** The inherited [OnMouseDown], run on the base-class subobject. *)
Definition OnMouseDown (x y : float) (mod_ : IMouseMod) : method t unit :=
  fun s =>
    obind (IButtonControlBase.OnMouseDown x y mod_ (base (fst s), snd s))
      (fun '(r, (b, g)) => Done (r, (upd_base (fun _ => b) (fst s), g))).

End Defs.
End IVSwitchControl.

Module IBTextControl.
Section Defs.
Context {tk : Toolkit}.

Record t : Type := {
  base : ITextControl.t;
  mCharWidth : Z;
  mCharHeight : Z;
  mCharOffset : Z;
  mMultiLine : bool;
  mVCentre : bool;
  mTextBitmap : IBitmap
}.

Definition control (c : t) : IControl.t := ITextControl.base (base c).

(** The constructor; the blend argument [bl] is not used by it. *)
Definition new (plug : IPlugBaseGraphics) (rect : IRECT) (textBitmap : IBitmap)
  (text : IText) (str : string) (charWidth charHeight charOffset : Z)
  (multiLine vCenter : bool) (bl : EBlendType) : t :=
  {| base := ITextControl.Set_mStr str (ITextControl.new plug rect text str);
     mCharWidth := charWidth;
     mCharHeight := charHeight;
     mCharOffset := charOffset;
     mMultiLine := multiLine;
     mVCentre := vCenter;
     mTextBitmap := textBitmap |}.

Local Open Scope method_scope.

Definition Draw : method t unit :=
  this <- get_this ;;
  modify_graphics
    (issue (DrawBitmapedText (mTextBitmap this)
              (IControl.mRECT (control this))
              (ITextControl.mText (base this))
              (IControl.mBlend (control this))
              (ITextControl.mStr (base this))
              (mVCentre this) (mMultiLine this)
              (mCharWidth this) (mCharHeight this) (mCharOffset this))).

End Defs.
End IBTextControl.

(* ===================================================================== *)
(** ** A toolkit for running the model on concrete inputs *)
(* ===================================================================== *)

(** Rectangles as the terms built from the geometry calls: every call is
    kept as it was made. *)
Inductive rect_term : Type :=
| Rect (l t r b : Z)
| DefaultRect
| SubH (r : rect_term) (numSlices sliceIdx : Z)
| SubV (r : rect_term) (numSlices sliceIdx : Z)
| Padded (r : rect_term) (padding : Z).

Definition term_toolkit : Toolkit := {|
  IRECT := rect_term;
  IColor := Z;
  IBitmap := string;
  IText := string;
  IBlend := Z;
  EBlendType := Z;
  IMouseMod := bool;
  IRECT_default := DefaultRect;
  IBlend_default := 0;
  SubRectHorizontal := SubH;
  SubRectVertical := SubV;
  GetPadded := Padded
|}.

(** Sample values: 0.25, 0.75, 2.5 and 4294967295.0. *)
Definition d_0_25 : double := S754_finite false 4503599627370496 (-54).
Definition d_0_75 : double := S754_finite false 6755399441055744 (-53).
Definition d_2_5 : double := S754_finite false 5629499534213120 (-51).
Definition d_uint32_max : double := Z_to_double UINT32_MAX.

(** A host with one parameter of the given range. *)
Definition one_param_plug (range : double) : IPlugBaseGraphics :=
  {| mParams := [ {| GetRange := range |} ] |}.

Definition sample_rect : rect_term := Rect 0 0 100 40.

(** An unbound button with [n] states and value [v]. *)
Definition sample_button (n : Z) (v : double)
  : @IButtonControlBase.t term_toolkit :=
  {| IButtonControlBase.base :=
       IControl.set_mValue v
         (IControl.new (tk := term_toolkit)
            (one_param_plug one_d) sample_rect kNoParameter None);
     IButtonControlBase.mNumStates := n |}.

(** The vertical switch built on [sample_button n v], with the step that
    [float] arithmetic gives for [n]. *)
Definition sample_switch (n : Z) (step : float) (v : double)
  : @IVSwitchControl.t term_toolkit :=
  {| IVSwitchControl.base := sample_button n v;
     IVSwitchControl.mStep := step;
     IVSwitchControl.mFGColor := 0 : @IColor term_toolkit;
     IVSwitchControl.mBGColor := 16777215 : @IColor term_toolkit;
     IVSwitchControl.mDirection := kVertical |}.

(** [-0.5f] and [-0.75f] *)
Definition f_minus_0_5 : float := S754_finite true 8388608 (-24).
Definition f_minus_0_75 : float := S754_finite true 12582912 (-24).

Definition no_calls : @IGraphics term_toolkit := {| calls := [] |}.

Definition no_mod : @IMouseMod term_toolkit := false.

(** The value of [1.f/float(n) - 1.] stored in a [float], the expression
    of [OnMouseDown] and of the switch constructor. *)
Definition click_step (n : Z) : float :=
  double_to_float
    (fsub64 (float_to_double (fdiv32 one_f (uint32_to_float n))) one_d).

(** The magnitude of a finite number: [mag] with
    [2^(mag-1) <= |x| < 2^mag]. *)
Definition magnitude (m : positive) (e : Z) : Z := Zpos (digits2_pos m) + e.

(** [4294967296.0], the first [double] beyond [uint32_t], and [-1.0f]. *)
Definition d_two_32 : double := S754_finite false 4503599627370496 (-20).
Definition f_minus_1 : float := S754_finite true 8388608 (-23).

Section MouseDownSeries.
Context {tk : Toolkit}.

(** A series of mouse-down events on a button, oldest first: each one is
    a call of [OnMouseDown] with its arguments. *)
Fixpoint OnMouseDown_series (events : list (float * float * IMouseMod))
  (s : IButtonControlBase.t * IGraphics)
  : outcome (unit * (IButtonControlBase.t * IGraphics)) :=
  match events with
  | [] => Done (tt, s)
  | (x, y, mod_) :: rest =>
      obind (IButtonControlBase.OnMouseDown x y mod_ s)
        (fun r => OnMouseDown_series rest (snd r))
  end.

End MouseDownSeries.

(* ===================================================================== *)
(** ** Facts about the arithmetic *)
(* ===================================================================== *)

Lemma sample_values :
  d_0_25 = fdiv64 (Z_to_double 1) (Z_to_double 4) /\
  d_0_75 = fdiv64 (Z_to_double 3) (Z_to_double 4) /\
  d_2_5 = fdiv64 (Z_to_double 5) (Z_to_double 2).
Proof. repeat split; vm_compute; reflexivity. Qed.

(** A positive number of [d] binary digits lies in [[2^(d-1), 2^d)]. *)
Lemma digits2_pos_bounds (m : positive) :
  2 ^ (Zpos (digits2_pos m) - 1) <= Zpos m < 2 ^ Zpos (digits2_pos m).
Proof.
  induction m as [p IH | p IH |]; cbn [digits2_pos]; [| | cbn; lia].
  all: rewrite Pos2Z.inj_succ.
  all: replace (Z.succ (Zpos (digits2_pos p)) - 1)
         with (Z.succ (Zpos (digits2_pos p) - 1)) by lia.
  all: assert (0 <= Zpos (digits2_pos p) - 1) by lia.
  all: rewrite !Z.pow_succ_r by lia; lia.
Qed.

Lemma one_d_eq : one_d = S754_finite false 4503599627370496 (-52).
Proof. vm_compute; reflexivity. Qed.

Lemma d_uint32_max_eq :
  d_uint32_max = S754_finite false 9007199252643840 (-21).
Proof. vm_compute; reflexivity. Qed.

(** Numerical equality with [1.0] or [0.0] determines the value. *)
Lemma SFeqb_one_d (x : double) : SFeqb x one_d = true -> x = one_d.
Proof.
  rewrite one_d_eq. unfold SFeqb.
  destruct x as [s | s | | s m e]; cbn [SFcompare].
  - destruct s; intros H; discriminate H.
  - destruct s; intros H; discriminate H.
  - intros H; discriminate H.
  - destruct s; [intros H; discriminate H|].
    destruct (Z.compare_spec e (-52)) as [He | He | He];
      [| intros H; discriminate H ..].
    destruct (Pos.compare_cont Eq m 4503599627370496) eqn:Hc;
      intros H; [| discriminate H ..].
    apply (Pos.compare_eq m 4503599627370496) in Hc. now subst.
Qed.

Lemma SFeqb_zero_d (x : double) :
  SFeqb x zero_d = negb (double_to_bool x).
Proof. destruct x as [s | s | | s m e]; try destruct s; reflexivity. Qed.

(** A binary64 value [x] with [1 <= x < 4294967295] converts to a
    [uint32_t] between 1 and 4294967294. *)
Lemma double_to_uint32_in_range (x : double) :
  is_double x = true ->
  SFleb one_d x = true ->
  SFltb x d_uint32_max = true ->
  exists r, double_to_uint32 x = Some r /\ 1 <= r <= UINT32_MAX - 1.
Proof.
  rewrite one_d_eq, d_uint32_max_eq. unfold SFleb, SFltb.
  destruct x as [s | s | | s m e]; cbn [SFcompare].
  - intros _ H; discriminate H.
  - destruct s; intros _ H1 H2; [discriminate H1 | discriminate H2].
  - intros _ H; discriminate H.
  - destruct s; [intros _ H; discriminate H|].
    intros Hv Hlo Hhi.
    (* the exponent lies between those of the two bounds *)
    assert (He : -52 <= e <= -21).
    { destruct (Z.compare_spec (-52) e); destruct (Z.compare_spec e (-21));
        try lia; discriminate. }
    (* a canonical mantissa at such an exponent has 53 digits *)
    assert (Hd : Zpos (digits2_pos m) = 53).
    { unfold is_double, valid_binary, bounded, canonical_mantissa in Hv.
      apply andb_prop in Hv. destruct Hv as [Hc _].
      apply Z.eqb_eq in Hc. unfold fexp, emin, prec64, emax64 in Hc.
      clear Hlo Hhi. lia. }
    assert (Hm := digits2_pos_bounds m).
    rewrite Hd in Hm. change (53 - 1) with 52 in Hm.
    assert (Hm53 : Zpos m < 2 ^ 53) by lia.
    assert (Hm52 : 2 ^ 52 <= Zpos m) by lia.
    clear Hm Hd Hv.
    assert (Hhi' : e = -21 -> Zpos m < 9007199252643840).
    { intros ->. rewrite Z.compare_refl in Hhi.
      destruct (Pos.compare_cont Eq m 9007199252643840) eqn:Hc;
        try discriminate Hhi.
      exact (Pos2Z.pos_lt_pos m 9007199252643840 Hc). }
    clear Hlo Hhi.
    destruct e as [| p | p]; try lia.
    unfold double_to_uint32, to_integral, trunc, cond_Zopp.
    rewrite Z.shiftr_div_pow2 by lia.
    set (k := - Zneg p) in *.
    assert (Hk : 21 <= k <= 52) by (unfold k; lia).
    assert (Hp : 2 ^ 21 <= 2 ^ k <= 2 ^ 52).
    { split; apply Z.pow_le_mono_r; lia. }
    assert (Hr1 : 1 <= Zpos m / 2 ^ k).
    { apply Z.div_le_lower_bound; lia. }
    assert (Hr2 : Zpos m / 2 ^ k < UINT32_MAX).
    { apply Z.div_lt_upper_bound; [lia |].
      destruct (Z.eq_dec k 21) as [Hk21 | Hk21].
      - rewrite Hk21. unfold UINT32_MAX.
        assert (Zneg p = -21) by (unfold k in Hk21; lia).
        specialize (Hhi' H). change (2 ^ 21) with 2097152. lia.
      - assert (2 ^ 22 <= 2 ^ k) by (apply Z.pow_le_mono_r; lia).
        unfold UINT32_MAX.
        change (2 ^ 22) with 4194304 in H.
        change (2 ^ 53) with 9007199254740992 in Hm53. nia. }
    exists (Zpos m / 2 ^ k). split; [| lia].
    replace (0 <=? Zpos m / 2 ^ k) with true by (symmetry; apply Z.leb_le; lia).
    replace (Zpos m / 2 ^ k <=? UINT32_MAX) with true
      by (symmetry; apply Z.leb_le; lia).
    reflexivity.
Qed.

Lemma to_integral_Some (lo hi : Z) (x : spec_float) (n : Z) :
  to_integral lo hi x = Some n -> trunc x = Some n /\ lo <= n <= hi.
Proof.
  unfold to_integral. destruct (trunc x) as [k |]; [| intros H; discriminate H].
  destruct (lo <=? k) eqn:Hlo; destruct (k <=? hi) eqn:Hhi; cbn [andb];
    intros H; try discriminate H.
  injection H as <-. apply Z.leb_le in Hlo, Hhi. auto.
Qed.

(* ===================================================================== *)
(** ** IButtonControlBase: construction *)
(* ===================================================================== *)

Section ButtonConstruction.
Context {tk : Toolkit}.
Import IButtonControlBase.

(** The constructor, case by case. *)
Lemma new_unbound plug rect paramIdx actionFunc numStates :
  (paramIdx >? -1) = false ->
  new plug rect paramIdx actionFunc numStates =
  obind (assert (numStates >? 1))
    (fun _ => Done {| base := IControl.new plug rect paramIdx actionFunc;
                      mNumStates := numStates |}).
Proof. intros H. unfold new. rewrite H. reflexivity. Qed.

Lemma new_bound plug rect paramIdx actionFunc numStates param r :
  (paramIdx >? -1) = true ->
  GetParam plug paramIdx = Some param ->
  double_to_uint32 (GetRange param) = Some r ->
  new plug rect paramIdx actionFunc numStates =
  obind (assert (uint32_add r 1 >? 1))
    (fun _ => Done {| base := IControl.new plug rect paramIdx actionFunc;
                      mNumStates := uint32_add r 1 |}).
Proof. intros H Hp Hr. unfold new. rewrite H, Hp. cbn [of_option obind]. rewrite Hr. reflexivity. Qed.

Lemma uint32_add_1_small r : 0 <= r < UINT32_MAX -> uint32_add r 1 = r + 1.
Proof. unfold uint32_add, UINT32_MAX. intros H. apply Z.mod_small. lia. Qed.

Lemma uint32_add_1_wrap : uint32_add UINT32_MAX 1 = 0.
Proof. reflexivity. Qed.

(** C1 (as amended): a button constructed on a bound parameter
    ([paramIdx > -1]) has [mNumStates] equal to [GetRange()] truncated
    toward zero to a [uint32_t], plus 1; a button constructed with
    [paramIdx = kNoParameter] has [mNumStates] equal to the [numStates]
    argument. *)
Theorem button_new_mNumStates plug rect paramIdx actionFunc numStates c :
  new plug rect paramIdx actionFunc numStates = Done c ->
  (paramIdx > -1 ->
   exists param r,
     GetParam plug paramIdx = Some param /\
     trunc (GetRange param) = Some r /\
     0 <= r < UINT32_MAX /\
     mNumStates c = r + 1) /\
  (paramIdx = kNoParameter -> mNumStates c = numStates).
Proof.
  intros Hnew. split.
  - intros Hidx.
    assert (Hgt : (paramIdx >? -1) = true) by (apply Z.gtb_lt; lia).
    unfold new in Hnew. rewrite Hgt in Hnew.
    destruct (GetParam plug paramIdx) as [param |];
      [| discriminate Hnew].
    cbn [of_option obind] in Hnew.
    destruct (double_to_uint32 (GetRange param)) as [r |] eqn:Hr;
      [| discriminate Hnew].
    cbn [of_option obind] in Hnew.
    apply to_integral_Some in Hr. destruct Hr as [Ht [Hr0 Hr1]].
    destruct (uint32_add r 1 >? 1) eqn:Ha; [| discriminate Hnew].
    cbn [assert obind] in Hnew. injection Hnew as <-. cbn [mNumStates].
    assert (r <> UINT32_MAX).
    { intros ->. rewrite uint32_add_1_wrap in Ha. discriminate Ha. }
    exists param, r. repeat split; try assumption; try lia.
    apply uint32_add_1_small. lia.
  - intros ->. rewrite new_unbound in Hnew by reflexivity.
    destruct (numStates >? 1); [| discriminate Hnew].
    cbn [assert obind] in Hnew. now injection Hnew as <-.
Qed.

(** C9 (as amended): the assertion [mNumStates > 1] holds, and the
    constructor completes, for every construction with
    [paramIdx = kNoParameter] and [numStates >= 2], and for every
    construction with [paramIdx > -1] whose bound parameter has
    [1 <= GetRange() < 4294967295]. *)
Theorem button_new_assertion_holds plug rect paramIdx actionFunc numStates :
  (paramIdx = kNoParameter /\ numStates >= 2) \/
  (paramIdx > -1 /\
   exists param,
     GetParam plug paramIdx = Some param /\
     is_double (GetRange param) = true /\
     SFleb one_d (GetRange param) = true /\
     SFltb (GetRange param) d_uint32_max = true) ->
  exists n,
    n > 1 /\
    new plug rect paramIdx actionFunc numStates =
    Done {| base := IControl.new plug rect paramIdx actionFunc;
            mNumStates := n |}.
Proof.
  intros [[-> Hn] | [Hidx [param [Hp [Hv [Hlo Hhi]]]]]].
  - exists numStates. split; [lia |].
    rewrite new_unbound by reflexivity.
    replace (numStates >? 1) with true by (symmetry; apply Z.gtb_lt; lia).
    reflexivity.
  - destruct (double_to_uint32_in_range _ Hv Hlo Hhi) as [r [Hr Hb]].
    exists (r + 1). split; [lia |].
    rewrite (new_bound _ _ _ _ _ param r); try assumption;
      [| apply Z.gtb_lt; lia].
    rewrite uint32_add_1_small by lia.
    replace (r + 1 >? 1) with true by (symmetry; apply Z.gtb_lt; lia).
    reflexivity.
Qed.

End ButtonConstruction.

(* ===================================================================== *)
(** ** IButtonControlBase: OnMouseDown *)
(* ===================================================================== *)

Section ButtonMouse.
Context {tk : Toolkit}.
Import IButtonControlBase.

(** The graphics context after [if (f != nullptr) f(GetGUI())]. *)
Lemma call_action_run {C : Type} (f : ActionFunc) (c : C) (g : IGraphics) :
  call_action f (c, g) =
  Done (tt, (c, match f with Some act => act g | None => g end)).
Proof. destruct f; reflexivity. Qed.

(** [OnMouseDown] always completes; it replaces the value, marks the
    control dirty and runs the action function on the graphics context. *)
Lemma OnMouseDown_run x y mod_ (c : t) (g : IGraphics) :
  OnMouseDown x y mod_ (c, g) =
  Done (tt,
        (upd_base
           (fun b =>
              IControl.SetDirty
                (IControl.set_mValue
                   (if mNumStates c =? 2 then
                      bool_to_double
                        (negb (double_to_bool (IControl.mValue (base c))))
                    else
                      fmod one_d
                        (fadd64 (IControl.mValue (base c))
                           (float_to_double
                              (double_to_float
                                 (fsub64
                                    (float_to_double
                                       (fdiv32 one_f
                                          (uint32_to_float (mNumStates c))))
                                    one_d)))))
                   b))
           c,
         match IControl.mActionFunc (base c) with
         | Some act => act g
         | None => g
         end)).
Proof.
  unfold OnMouseDown, bind, get_this. cbn [obind fst snd].
  destruct (mNumStates c =? 2);
    destruct (IControl.mActionFunc (base c)); reflexivity.
Qed.

(** C8: with two states, [OnMouseDown] sends a value that compares equal
    to zero to 1 and every other value to 0; from a value equal to 0 or to
    1, two successive calls give back a value equal to the first one. *)
Theorem OnMouseDown_two_states_toggle x y mod_ x2 y2 mod2 (c : t) (g : IGraphics) :
  mNumStates c = 2 ->
  exists c1 g1 c2 g2,
    OnMouseDown x y mod_ (c, g) = Done (tt, (c1, g1)) /\
    OnMouseDown x2 y2 mod2 (c1, g1) = Done (tt, (c2, g2)) /\
    IControl.mValue (base c1) =
      (if SFeqb (IControl.mValue (base c)) zero_d then one_d else zero_d) /\
    (SFeqb (IControl.mValue (base c)) zero_d = true \/
     SFeqb (IControl.mValue (base c)) one_d = true ->
     SFeqb (IControl.mValue (base c2)) (IControl.mValue (base c)) = true).
Proof.
  intros HN.
  eexists _, _, _, _.
  split; [apply OnMouseDown_run |].
  split; [apply OnMouseDown_run |].
  cbn [upd_base base mNumStates IControl.SetDirty IControl.set_mDirty
       IControl.set_mValue IControl.mValue].
  rewrite HN. change (2 =? 2) with true. cbv iota.
  rewrite !SFeqb_zero_d. split.
  - destruct (double_to_bool (IControl.mValue (base c))); reflexivity.
  - intros [H0 | H1].
    + destruct (IControl.mValue (base c)) as [s | s | | s m e];
        try discriminate H0.
      reflexivity.
    + apply SFeqb_one_d in H1. rewrite H1. vm_compute. reflexivity.
Qed.

(** [OnMouseDown] changes only the value and the dirty flag of the
    control. *)
Lemma OnMouseDown_frame x y mod_ (c : t) (g : IGraphics) :
  exists c' g',
    OnMouseDown x y mod_ (c, g) = Done (tt, (c', g')) /\
    g' = match IControl.mActionFunc (base c) with
         | Some act => act g
         | None => g
         end /\
    IControl.mDirty (base c') = true /\
    IControl.mParamIdx (base c') = IControl.mParamIdx (base c) /\
    mNumStates c' = mNumStates c /\
    IControl.mRECT (base c') = IControl.mRECT (base c) /\
    IControl.mPlug (base c') = IControl.mPlug (base c) /\
    IControl.mActionFunc (base c') = IControl.mActionFunc (base c) /\
    IControl.mBlend (base c') = IControl.mBlend (base c).
Proof.
  eexists _, _. split; [apply OnMouseDown_run |].
  repeat split.
Qed.

End ButtonMouse.

(* ===================================================================== *)
(** ** IVSwitchControl and IBTextControl *)
(* ===================================================================== *)

Section Switch.
Context {tk : Toolkit}.
Import IVSwitchControl.

Lemma switch_OnMouseDown_run x y mod_ (sw : t) (g : IGraphics) :
  exists b g',
    IButtonControlBase.OnMouseDown x y mod_ (base sw, g) = Done (tt, (b, g')) /\
    OnMouseDown x y mod_ (sw, g) = Done (tt, (upd_base (fun _ => b) sw, g')).
Proof.
  eexists _, _. split; [apply OnMouseDown_run |].
  unfold OnMouseDown. cbn [fst snd]. rewrite OnMouseDown_run. reflexivity.
Qed.

(** What [Draw] does once the state index is known. *)
Lemma Draw_run (sw : t) (g : IGraphics) :
  Draw (sw, g) =
  match Draw_state sw with
  | Some state =>
      Done (tt,
            (sw,
             {| calls :=
                  calls g ++
                  [FillRect (mBGColor sw) (IControl.mRECT (control sw));
                   FillRect (mFGColor sw)
                     (GetPadded
                        (match mDirection sw with
                         | kHorizontal =>
                             SubRectHorizontal (IControl.mRECT (control sw))
                               (IButtonControlBase.mNumStates (base sw)) state
                         | kVertical =>
                             SubRectVertical (IControl.mRECT (control sw))
                               (IButtonControlBase.mNumStates (base sw)) state
                         end)
                        (-10))] |}))
  | None => Undefined
  end.
Proof.
  unfold Draw, bind, get_this, lift_option. cbn [obind fst snd].
  destruct (Draw_state sw) as [state |]; cbn [of_option obind]; [| reflexivity].
  unfold call_FillRect, modify_graphics, issue. cbn [obind fst snd calls].
  rewrite <- app_assoc. cbn [app].
  destruct (mDirection sw); reflexivity.
Qed.

(** C4: [Draw] issues exactly two [FillRect] calls on the graphics
    context, in this order: the background colour over [mRECT], then the
    foreground colour over the state sub-rectangle padded by -10; the
    sub-rectangle is [SubRectHorizontal] for [kHorizontal] and
    [SubRectVertical] for [kVertical]. *)
Theorem switch_Draw_calls (sw : t) (g : IGraphics) (state : Z) :
  Draw_state sw = Some state ->
  exists g',
    Draw (sw, g) = Done (tt, (sw, g')) /\
    calls g' =
      calls g ++
      [FillRect (mBGColor sw) (IControl.mRECT (control sw));
       FillRect (mFGColor sw)
         (GetPadded
            (match mDirection sw with
             | kHorizontal =>
                 SubRectHorizontal (IControl.mRECT (control sw))
                   (IButtonControlBase.mNumStates (base sw)) state
             | kVertical =>
                 SubRectVertical (IControl.mRECT (control sw))
                   (IButtonControlBase.mNumStates (base sw)) state
             end)
            (-10))].
Proof.
  intros Hs. rewrite Draw_run, Hs. eexists. split; reflexivity.
Qed.

(** X17: on every constructed switch with more than two states, the
    amount that the inherited [OnMouseDown] adds to the value before it
    takes [fmod(1., mValue)] is the [mStep] stored by the constructor, and
    the click leaves [mStep] as it is. *)
Theorem switch_OnMouseDown_adds_mStep
  plug rect paramIdx actionFunc fgColor bgColor numStates dir
  (sw0 : t) (v : double) x y mod_ (g : IGraphics) :
  new plug rect paramIdx actionFunc fgColor bgColor numStates dir = Done sw0 ->
  IButtonControlBase.mNumStates (base sw0) > 2 ->
  exists sw' g',
    OnMouseDown x y mod_ (set_mValue v sw0, g) = Done (tt, (sw', g')) /\
    IControl.mValue (control sw') =
      fmod one_d (fadd64 v (float_to_double (mStep sw0))) /\
    mStep sw' = mStep sw0.
Proof.
  intros Hnew HN.
  unfold new in Hnew.
  destruct (IButtonControlBase.new plug rect paramIdx actionFunc numStates)
    as [b | |]; [| discriminate Hnew ..].
  cbn [obind] in Hnew. injection Hnew as <-.
  cbn [base mStep] in *.
  eexists _, _. split.
  - unfold OnMouseDown. cbn [fst snd]. rewrite OnMouseDown_run. reflexivity.
  - cbn. replace (IButtonControlBase.mNumStates b =? 2) with false
      by (symmetry; apply Z.eqb_neq; lia).
    repeat split.
Qed.

End Switch.

Section Text.
Context {tk : Toolkit}.
Import IBTextControl.

(** [Draw] passes the members of the control as they are. *)
Lemma text_Draw_run (c : t) (g : IGraphics) :
  Draw (c, g) =
  Done (tt,
        (c,
         {| calls :=
              calls g ++
              [DrawBitmapedText (mTextBitmap c)
                 (IControl.mRECT (control c))
                 (ITextControl.mText (base c))
                 (IControl.mBlend (control c))
                 (ITextControl.mStr (base c))
                 (mVCentre c) (mMultiLine c)
                 (mCharWidth c) (mCharHeight c) (mCharOffset c)] |})).
Proof. reflexivity. Qed.

(** C5: [Draw] issues exactly one [DrawBitmapedText] call, with the
    bitmap font, the control rectangle, and the string, character width,
    height and offset, multi-line flag and vertical-centre flag given to
    the constructor. *)
Theorem text_Draw_call
  plug rect textBitmap text str charWidth charHeight charOffset
  multiLine vCenter bl (g : IGraphics) :
  let c :=
    new plug rect textBitmap text str charWidth charHeight charOffset
      multiLine vCenter bl in
  Draw (c, g) =
  Done (tt,
        (c,
         {| calls :=
              calls g ++
              [DrawBitmapedText textBitmap
                 (IControl.mRECT (control c))
                 (ITextControl.mText (base c))
                 (IControl.mBlend (control c))
                 str vCenter multiLine charWidth charHeight charOffset] |})).
Proof. intros c. rewrite text_Draw_run. reflexivity. Qed.

End Text.

(* ===================================================================== *)
(** ** Frame properties *)
(* ===================================================================== *)

Section Frame.
Context {tk : Toolkit}.

(** C6: [Draw] of [IVSwitchControl] and of [IBTextControl] only issues
    drawing calls on the graphics context (the calls already received are
    kept, new ones are added after them) and leaves every field of the
    control unchanged.  The switch's [Draw] completes unless the
    conversion of [mValue / mStep] to [int] is undefined. *)
Theorem Draw_leaves_control_unchanged :
  (forall (sw : IVSwitchControl.t) (g : IGraphics),
     match IVSwitchControl.Draw (sw, g) with
     | Done (_, (sw', g')) =>
         sw' = sw /\ exists issued, calls g' = calls g ++ issued
     | AssertionFailed => False
     | Undefined => IVSwitchControl.Draw_state sw = None
     end) /\
  (forall (c : IBTextControl.t) (g : IGraphics),
     exists issued,
       IBTextControl.Draw (c, g) =
       Done (tt, (c, {| calls := calls g ++ issued |}))).
Proof.
  split.
  - intros sw g. rewrite Draw_run.
    destruct (IVSwitchControl.Draw_state sw) as [state |]; [| reflexivity].
    split; [reflexivity |]. eexists. reflexivity.
  - intros c g. eexists. apply text_Draw_run.
Qed.



End Frame.

(* ===================================================================== *)
(** ** The model on concrete inputs *)
(* ===================================================================== *)

Lemma sample_steps :
  f_minus_0_5 =
    double_to_float
      (fsub64 (float_to_double (fdiv32 one_f (uint32_to_float 2))) one_d) /\
  f_minus_0_75 =
    double_to_float
      (fsub64 (float_to_double (fdiv32 one_f (uint32_to_float 4))) one_d).
Proof. split; vm_compute; reflexivity. Qed.

(** C1, counterexample: a button bound to a parameter whose range is 2.5
    is constructed with 3 states, and 3 is not 2.5 + 1. *)
Lemma button_new_fractional_range :
  0 > -1 /\
  GetParam (one_param_plug d_2_5) 0 = Some {| GetRange := d_2_5 |} /\
  IButtonControlBase.new (tk := term_toolkit)
    (one_param_plug d_2_5) sample_rect 0 None 2 =
  Done {| IButtonControlBase.base :=
            IControl.new (tk := term_toolkit) (one_param_plug d_2_5) sample_rect 0 None;
          IButtonControlBase.mNumStates := 3 |} /\
  SFeqb (Z_to_double 3) (fadd64 d_2_5 one_d) = false.
Proof. repeat split. Qed.

(** C1, witness. *)
Lemma button_new_mNumStates_witness :
  let c :=
    {| IButtonControlBase.base :=
         IControl.new (tk := term_toolkit)
           (one_param_plug d_2_5) sample_rect 0 None;
       IButtonControlBase.mNumStates := 3 |} in
  IButtonControlBase.new (tk := term_toolkit)
    (one_param_plug d_2_5) sample_rect 0 None 2 = Done c /\
  ((0 > -1 ->
    exists param r,
      GetParam (one_param_plug d_2_5) 0 = Some param /\
      trunc (GetRange param) = Some r /\
      0 <= r < UINT32_MAX /\
      IButtonControlBase.mNumStates c = r + 1) /\
   (0 = kNoParameter -> IButtonControlBase.mNumStates c = 2)).
Proof.
  intros c. split; [reflexivity |].
  apply (button_new_mNumStates (tk := term_toolkit)
           (one_param_plug d_2_5) sample_rect 0 None 2 c).
  reflexivity.
Defined.

(** C9, counterexample: a parameter whose range is 4294967295 has
    [GetRange() >= 1], and the constructor stops at the assertion, the
    [uint32_t] sum having wrapped to 0. *)
Lemma button_new_assertion_fails_at_uint32_max :
  0 > -1 /\
  GetParam (one_param_plug d_uint32_max) 0 =
    Some {| GetRange := d_uint32_max |} /\
  is_double d_uint32_max = true /\
  SFleb one_d d_uint32_max = true /\
  double_to_uint32 d_uint32_max = Some 4294967295 /\
  IButtonControlBase.new (tk := term_toolkit)
    (one_param_plug d_uint32_max) sample_rect 0 None 2 = AssertionFailed.
Proof. repeat split. Qed.

(** C9, witness: the default [numStates = 2] without a parameter, and a
    parameter of range 1. *)
Lemma button_new_assertion_holds_witness :
  (exists n,
     n > 1 /\
     IButtonControlBase.new (tk := term_toolkit)
       (one_param_plug one_d) sample_rect kNoParameter None 2 =
     Done {| IButtonControlBase.base :=
               IControl.new (tk := term_toolkit) (one_param_plug one_d) sample_rect kNoParameter None;
             IButtonControlBase.mNumStates := n |}) /\
  (exists n,
     n > 1 /\
     IButtonControlBase.new (tk := term_toolkit)
       (one_param_plug one_d) sample_rect 0 None 2 =
     Done {| IButtonControlBase.base :=
               IControl.new (tk := term_toolkit) (one_param_plug one_d) sample_rect 0 None;
             IButtonControlBase.mNumStates := n |}).
Proof.
  split.
  - apply (button_new_assertion_holds (tk := term_toolkit)
             (one_param_plug one_d) sample_rect kNoParameter None 2).
    left. split; [reflexivity | lia].
  - apply (button_new_assertion_holds (tk := term_toolkit)
             (one_param_plug one_d) sample_rect 0 None 2).
    right. split; [lia |].
    exists {| GetRange := one_d |}. repeat split.
Defined.

(** C2, the code at the failing inputs: with four states and the value
    0.75, which lies in [[0, 1]], [OnMouseDown] leaves NaN in [mValue];
    from the value 0 it gives 0.25 and from 0.25 it gives 0 again, so the
    clicks alternate between two values. *)
Theorem OnMouseDown_four_states :
  IButtonControlBase.new (tk := term_toolkit)
    (one_param_plug one_d) sample_rect kNoParameter None 4 =
  Done (sample_button 4 zero_d) /\
  in_unit_interval d_0_75 = true /\
  IButtonControlBase.OnMouseDown one_f one_f no_mod
    (sample_button 4 d_0_75, no_calls) =
  Done (tt, (sample_button 4 S754_nan, no_calls)) /\
  in_unit_interval S754_nan = false /\
  IButtonControlBase.OnMouseDown one_f one_f no_mod
    (sample_button 4 zero_d, no_calls) =
  Done (tt, (sample_button 4 d_0_25, no_calls)) /\
  IButtonControlBase.OnMouseDown one_f one_f no_mod
    (sample_button 4 d_0_25, no_calls) =
  Done (tt, (sample_button 4 zero_d, no_calls)).
Proof. repeat split. Qed.

(** C3, the code at the failing input: a switch with two states and the
    value 1 has [mStep = -0.5]; [Draw] computes the state index -2, which
    is not in [[0, mNumStates - 1]], and asks for slice -2 of 2. *)
Theorem switch_Draw_state_out_of_range :
  IVSwitchControl.new (tk := term_toolkit)
    (one_param_plug one_d) sample_rect kNoParameter None 0 16777215 2 kVertical =
  Done (sample_switch 2 f_minus_0_5 zero_d) /\
  IVSwitchControl.OnMouseDown one_f one_f no_mod
    (sample_switch 2 f_minus_0_5 zero_d, no_calls) =
  Done (tt, (sample_switch 2 f_minus_0_5 one_d, no_calls)) /\
  in_unit_interval one_d = true /\
  IVSwitchControl.Draw_state (sample_switch 2 f_minus_0_5 one_d) = Some (-2) /\
  IVSwitchControl.Draw (sample_switch 2 f_minus_0_5 one_d, no_calls) =
  Done (tt,
        (sample_switch 2 f_minus_0_5 one_d,
         {| calls :=
              [FillRect (16777215 : @IColor term_toolkit) sample_rect;
               FillRect (0 : @IColor term_toolkit)
                 (Padded (SubV sample_rect 2 (-2)) (-10))] |})).
Proof. repeat split. Qed.

(** C4, witness: the two-state sample switch at the value 0. *)
Lemma switch_Draw_calls_witness :
  IVSwitchControl.Draw_state (sample_switch 2 f_minus_0_5 zero_d) = Some 0 /\
  exists g',
    IVSwitchControl.Draw (sample_switch 2 f_minus_0_5 zero_d, no_calls) =
    Done (tt, (sample_switch 2 f_minus_0_5 zero_d, g')) /\
    calls g' =
      calls no_calls ++
      [FillRect (16777215 : @IColor term_toolkit) sample_rect;
       FillRect (0 : @IColor term_toolkit)
         (Padded (SubV sample_rect 2 0) (-10))].
Proof.
  split; [reflexivity |].
  apply (switch_Draw_calls (tk := term_toolkit)
           (sample_switch 2 f_minus_0_5 zero_d) no_calls 0).
  reflexivity.
Defined.

(** C8, witness: the two-state sample button at the value 0. *)
Lemma OnMouseDown_two_states_toggle_witness :
  IButtonControlBase.mNumStates (sample_button 2 zero_d) = 2 /\
  exists c1 g1 c2 g2,
    IButtonControlBase.OnMouseDown one_f one_f no_mod
      (sample_button 2 zero_d, no_calls) = Done (tt, (c1, g1)) /\
    IButtonControlBase.OnMouseDown one_f one_f no_mod (c1, g1) =
      Done (tt, (c2, g2)) /\
    IControl.mValue (IButtonControlBase.base c1) =
      (if SFeqb (IControl.mValue
                   (IButtonControlBase.base (sample_button 2 zero_d))) zero_d
       then one_d else zero_d) /\
    (SFeqb (IControl.mValue
              (IButtonControlBase.base (sample_button 2 zero_d))) zero_d = true \/
     SFeqb (IControl.mValue
              (IButtonControlBase.base (sample_button 2 zero_d))) one_d = true ->
     SFeqb (IControl.mValue (IButtonControlBase.base c2))
       (IControl.mValue (IButtonControlBase.base (sample_button 2 zero_d)))
     = true).
Proof.
  split; [reflexivity |].
  apply (OnMouseDown_two_states_toggle (tk := term_toolkit)
           one_f one_f no_mod one_f one_f no_mod
           (sample_button 2 zero_d) no_calls).
  reflexivity.
Defined.

(** C10, the code at the failing input: a switch constructed with four
    states has [mStep = -0.75], the amount that [OnMouseDown] adds.  From
    the value 0, one click gives 0.25 and a second gives 0 again, so a
    third gives 0.25; the state index that [Draw] takes from
    [mValue / mStep] is 0 before the first click and after each of them,
    where a count of the clicks is 1, 2 and 3, and [Draw] fills slice 0
    of 4. *)
Theorem switch_Draw_state_ignores_clicks :
  IVSwitchControl.new (tk := term_toolkit)
    (one_param_plug one_d) sample_rect kNoParameter None 0 16777215 4 kVertical =
  Done (sample_switch 4 f_minus_0_75 zero_d) /\
  IVSwitchControl.Draw_state (sample_switch 4 f_minus_0_75 zero_d) = Some 0 /\
  (* first click *)
  IVSwitchControl.OnMouseDown one_f one_f no_mod
    (sample_switch 4 f_minus_0_75 zero_d, no_calls) =
  Done (tt, (sample_switch 4 f_minus_0_75 d_0_25, no_calls)) /\
  fmod one_d (fadd64 zero_d (float_to_double f_minus_0_75)) = d_0_25 /\
  IVSwitchControl.Draw_state (sample_switch 4 f_minus_0_75 d_0_25) = Some 0 /\
  (* second click *)
  IVSwitchControl.OnMouseDown one_f one_f no_mod
    (sample_switch 4 f_minus_0_75 d_0_25, no_calls) =
  Done (tt, (sample_switch 4 f_minus_0_75 zero_d, no_calls)) /\
  fmod one_d (fadd64 d_0_25 (float_to_double f_minus_0_75)) = zero_d /\
  (* the third click is the first again; [Draw] after the first click *)
  IVSwitchControl.Draw (sample_switch 4 f_minus_0_75 d_0_25, no_calls) =
  Done (tt,
        (sample_switch 4 f_minus_0_75 d_0_25,
         {| calls :=
              [FillRect (16777215 : @IColor term_toolkit) sample_rect;
               FillRect (0 : @IColor term_toolkit)
                 (Padded (SubV sample_rect 4 0) (-10))] |})).
Proof. repeat split. Qed.

(** X17, witness: the four-state sample switch, clicked at the value
    0.25. *)
Lemma switch_OnMouseDown_adds_mStep_witness :
  IVSwitchControl.new (tk := term_toolkit)
    (one_param_plug one_d) sample_rect kNoParameter None 0 16777215 4 kVertical =
  Done (sample_switch 4 f_minus_0_75 zero_d) /\
  IButtonControlBase.mNumStates
    (IVSwitchControl.base (sample_switch 4 f_minus_0_75 zero_d)) > 2 /\
  exists sw' g',
    IVSwitchControl.OnMouseDown one_f one_f no_mod
      (IVSwitchControl.set_mValue d_0_25
         (sample_switch 4 f_minus_0_75 zero_d), no_calls) =
    Done (tt, (sw', g')) /\
    IControl.mValue (IVSwitchControl.control sw') =
      fmod one_d
        (fadd64 d_0_25
           (float_to_double
              (IVSwitchControl.mStep (sample_switch 4 f_minus_0_75 zero_d)))) /\
    IVSwitchControl.mStep sw' =
      IVSwitchControl.mStep (sample_switch 4 f_minus_0_75 zero_d).
Proof.
  split; [reflexivity |]. split; [reflexivity |].
  apply (switch_OnMouseDown_adds_mStep (tk := term_toolkit)
           (one_param_plug one_d) sample_rect kNoParameter None
           (0 : @IColor term_toolkit) (16777215 : @IColor term_toolkit)
           4 kVertical
           (sample_switch 4 f_minus_0_75 zero_d) d_0_25
           one_f one_f no_mod no_calls).
  - reflexivity.
  - reflexivity.
Defined.

(* ===================================================================== *)
(** ** Exact results of rounding *)
(* ===================================================================== *)

Lemma digits2_pos_iter_xO (m k : positive) :
  digits2_pos (Pos.iter xO m k) = (digits2_pos m + k)%positive.
Proof.
  induction k as [| k IH] using Pos.peano_ind.
  - cbn. now rewrite Pos.add_1_r.
  - rewrite Pos.iter_succ. cbn [digits2_pos]. rewrite IH.
    now rewrite Pos.add_succ_r.
Qed.

Lemma Zpos_iter_xO (m k : positive) :
  Zpos (Pos.iter xO m k) = Zpos m * 2 ^ Zpos k.
Proof.
  induction k as [| k IH] using Pos.peano_ind.
  - cbn. lia.
  - rewrite Pos.iter_succ, Pos2Z.inj_succ, Z.pow_succ_r by lia.
    rewrite Pos2Z.inj_xO, IH. lia.
Qed.

(** The mantissa and the exponent after [shl_align] to a smaller or equal
    exponent. *)
Lemma shl_align_le (m : positive) (e e' : Z) :
  e' <= e ->
  snd (shl_align m e e') = e' /\
  Zpos (fst (shl_align m e e')) = Zpos m * 2 ^ (e - e') /\
  Zpos (digits2_pos (fst (shl_align m e e'))) + e' =
    Zpos (digits2_pos m) + e.
Proof.
  intros Hle. unfold shl_align.
  destruct (e' - e) as [| d | d] eqn:Hd; try lia.
  - assert (e' = e) by lia. subst e'. cbn [fst snd].
    rewrite Z.sub_diag. cbn. lia.
  - cbn [fst snd]. rewrite digits2_pos_iter_xO, Zpos_iter_xO.
    replace (e - e') with (Zpos d) by lia. lia.
Qed.

(** Rounding a number that fits the format changes nothing but its
    representation. *)
Lemma binary_round_exact (prec emax : Z) (s : bool) (m : positive) (e : Z) :
  fexp prec emax (Zpos (digits2_pos m) + e) <= e ->
  fexp prec emax (Zpos (digits2_pos m) + e) <= emax - prec ->
  binary_round prec emax s m e =
  S754_finite s
    (fst (shl_align m e (fexp prec emax (Zpos (digits2_pos m) + e))))
    (fexp prec emax (Zpos (digits2_pos m) + e)).
Proof.
  intros Hle Hmax. unfold binary_round.
  set (e' := fexp prec emax (Zpos (digits2_pos m) + e)) in *.
  destruct (shl_align_le m e e' Hle) as [He [_ Hd]].
  destruct (shl_align m e e') as [mz ez]. cbn [fst snd] in *. subst ez.
  unfold binary_round_aux, shr_fexp. cbn [Zdigits2].
  rewrite Hd. fold e'. rewrite Z.sub_diag. cbn [shr shr_record_of_loc].
  cbn [shr_m loc_of_shr_record round_nearest_even Zdigits2].
  rewrite Hd. fold e'. rewrite Z.sub_diag. cbn [shr shr_record_of_loc shr_m].
  replace (Z.leb e' (emax - prec)) with true by (symmetry; apply Z.leb_le; lia).
  reflexivity.
Qed.

Lemma digits2_pos_le (m : positive) (d : Z) :
  0 <= d -> Zpos m < 2 ^ d -> Zpos (digits2_pos m) <= d.
Proof.
  intros Hd Hm. destruct (digits2_pos_bounds m) as [Hlo _].
  destruct (Z.le_gt_cases (Zpos (digits2_pos m)) d) as [H | H]; [exact H |].
  assert (2 ^ d <= 2 ^ (Zpos (digits2_pos m) - 1))
    by (apply Z.pow_le_mono_r; lia).
  lia.
Qed.

Lemma digits2_pos_ge (m : positive) (d : Z) :
  2 ^ d <= Zpos m -> d + 1 <= Zpos (digits2_pos m).
Proof.
  intros Hm. destruct (digits2_pos_bounds m) as [_ Hhi].
  destruct (Z.le_gt_cases (d + 1) (Zpos (digits2_pos m))) as [H | H];
    [exact H |].
  destruct (Z.le_gt_cases 0 d) as [Hd | Hd].
  - assert (2 ^ Zpos (digits2_pos m) <= 2 ^ d)
      by (apply Z.pow_le_mono_r; lia).
    lia.
  - lia.
Qed.

Lemma digits2_pos_eq (m : positive) (d : Z) :
  0 < d -> 2 ^ (d - 1) <= Zpos m < 2 ^ d -> Zpos (digits2_pos m) = d.
Proof.
  intros Hd [Hlo Hhi].
  assert (H1 := digits2_pos_ge m (d - 1) Hlo).
  assert (H2 := digits2_pos_le m d ltac:(lia) Hhi). lia.
Qed.

(** A whole number below [2^53] is a [double], and converting it back
    gives the same number. *)
Lemma trunc_Z_to_double (n : Z) :
  0 <= n < 2 ^ 53 -> trunc (Z_to_double n) = Some n.
Proof.
  intros [Hn0 Hn]. destruct n as [| p | p]; [reflexivity | | lia].
  unfold Z_to_double, binary_normalize.
  assert (Hd : Zpos (digits2_pos p) <= 53) by (apply digits2_pos_le; lia).
  assert (Hf : fexp prec64 emax64 (Zpos (digits2_pos p) + 0) =
               Zpos (digits2_pos p) - 53).
  { unfold fexp, emin, prec64, emax64.
    change (Z.max (Zpos (digits2_pos p) + 0 - 53) (3 - 1024 - 53) =
            Zpos (digits2_pos p) - 53).
    lia. }
  rewrite binary_round_exact; rewrite Hf; unfold emax64, prec64; try lia.
  destruct (shl_align_le p 0 (Zpos (digits2_pos p) - 53)) as [_ [Hm _]];
    [lia |].
  unfold trunc, cond_Zopp. f_equal.
  destruct (Zpos (digits2_pos p) - 53) as [| q | q] eqn:He; try lia.
  rewrite Z.shiftr_div_pow2 by lia. rewrite Hm.
  replace (0 - Zneg q) with (- Zneg q) by lia.
  apply Z.div_mul. apply Z.pow_nonzero; lia.
Qed.

Lemma double_to_uint32_Z_to_double (n : Z) :
  0 <= n <= UINT32_MAX -> double_to_uint32 (Z_to_double n) = Some n.
Proof.
  intros Hn. unfold double_to_uint32, to_integral.
  rewrite trunc_Z_to_double by (unfold UINT32_MAX in Hn; lia).
  replace (0 <=? n) with true by (symmetry; apply Z.leb_le; lia).
  replace (n <=? UINT32_MAX) with true by (symmetry; apply Z.leb_le; lia).
  reflexivity.
Qed.

(* ===================================================================== *)
(** ** Rounding gives well-formed numbers *)
(* ===================================================================== *)

Section RoundValid.
Variables prec emax : Z.
Hypothesis Hprec : 0 < prec.

Local Abbreviation fexp := (SpecFloat.fexp prec emax).
Local Abbreviation emin := (SpecFloat.emin prec emax).

Lemma fexp_eq (k : Z) : fexp k = Z.max (k - prec) emin.
Proof. reflexivity. Qed.

Lemma Zdigits2_nonneg (m : Z) : 0 <= Zdigits2 m.
Proof. destruct m; cbn; lia. Qed.

Lemma Zdigits2_bounds (m : Z) :
  0 < m -> 2 ^ (Zdigits2 m - 1) <= m < 2 ^ Zdigits2 m.
Proof.
  intros Hm. destruct m as [| p | p]; try lia. apply digits2_pos_bounds.
Qed.

Lemma Zdigits2_unique (m d : Z) :
  2 ^ (d - 1) <= m < 2 ^ d -> 0 < m -> 0 < d -> Zdigits2 m = d.
Proof.
  intros [Hlo Hhi] Hm Hd.
  destruct (Zdigits2_bounds m Hm) as [Hlo' Hhi'].
  assert (H0 := Zdigits2_nonneg m).
  destruct (Z.lt_trichotomy (Zdigits2 m) d) as [H | [H | H]]; [| exact H |].
  - assert (2 ^ Zdigits2 m <= 2 ^ (d - 1)) by (apply Z.pow_le_mono_r; lia).
    lia.
  - assert (2 ^ d <= 2 ^ (Zdigits2 m - 1)) by (apply Z.pow_le_mono_r; lia).
    lia.
Qed.

Lemma Zdigits2_pos (m : Z) : 0 < m -> 0 < Zdigits2 m.
Proof. destruct m; cbn; lia. Qed.

Lemma Zdigits2_mono (m m' : Z) : 0 < m -> m <= m' -> Zdigits2 m <= Zdigits2 m'.
Proof.
  intros Hm Hle.
  destruct (Zdigits2_bounds m Hm) as [Hlo _].
  destruct (Zdigits2_bounds m') as [_ Hhi]; [lia |].
  destruct (Z.le_gt_cases (Zdigits2 m) (Zdigits2 m')) as [H | H]; [exact H |].
  assert (H0 := Zdigits2_nonneg m').
  assert (2 ^ Zdigits2 m' <= 2 ^ (Zdigits2 m - 1))
    by (apply Z.pow_le_mono_r; lia).
  lia.
Qed.

(** Digits after a right shift by [n]. *)
Lemma Zdigits2_div_pow2 (m n : Z) :
  0 < m -> 0 <= n ->
  (n < Zdigits2 m -> 0 < m / 2 ^ n /\ Zdigits2 (m / 2 ^ n) = Zdigits2 m - n) /\
  (Zdigits2 m <= n -> m / 2 ^ n = 0).
Proof.
  intros Hm Hn.
  destruct (Zdigits2_bounds m Hm) as [Hlo Hhi].
  assert (Hp : 0 < 2 ^ n) by (apply Z.pow_pos_nonneg; lia).
  split.
  - intros Hlt.
    assert (Hlo' : 2 ^ (Zdigits2 m - n - 1) <= m / 2 ^ n).
    { apply Z.div_le_lower_bound; [exact Hp |].
      rewrite <- Z.pow_add_r by lia.
      replace (n + (Zdigits2 m - n - 1)) with (Zdigits2 m - 1) by lia.
      exact Hlo. }
    assert (Hhi' : m / 2 ^ n < 2 ^ (Zdigits2 m - n)).
    { apply Z.div_lt_upper_bound; [exact Hp |].
      rewrite <- Z.pow_add_r by lia.
      replace (n + (Zdigits2 m - n)) with (Zdigits2 m) by lia.
      exact Hhi. }
    assert (Hq : 0 < m / 2 ^ n).
    { assert (0 < 2 ^ (Zdigits2 m - n - 1))
        by (apply Z.pow_pos_nonneg; lia).
      lia. }
    split; [exact Hq |].
    apply Zdigits2_unique; [split; assumption | exact Hq | lia].
  - intros Hge. apply Z.div_small. split; [lia |].
    assert (2 ^ Zdigits2 m <= 2 ^ n)
      by (apply Z.pow_le_mono_r; [lia | exact Hge]).
    lia.
Qed.

(** One step and [p] steps of the shift register. *)
Lemma shr_1_m (mrs : shr_record) :
  0 <= shr_m mrs -> shr_m (shr_1 mrs) = shr_m mrs / 2.
Proof.
  destruct mrs as [m r s]. cbn [shr_m shr_1]. intros Hm.
  destruct m as [| [p | p |] | p]; cbn [shr_m]; try lia.
  - reflexivity.
  - rewrite Pos2Z.inj_xI.
    replace (2 * Zpos p + 1) with (1 + Zpos p * 2) by lia.
    rewrite Z.div_add by lia. reflexivity.
  - rewrite Pos2Z.inj_xO. rewrite Z.mul_comm, Z.div_mul by lia. reflexivity.
  - reflexivity.
Qed.

Lemma iter_shr_1_m (p : positive) :
  forall mrs : shr_record,
    0 <= shr_m mrs ->
    shr_m (iter_pos shr_1 p mrs) = shr_m mrs / 2 ^ Zpos p.
Proof.
  induction p as [p IH | p IH |]; intros mrs Hm; cbn [iter_pos].
  - assert (H1 : 0 <= shr_m (shr_1 mrs)).
    { rewrite shr_1_m by exact Hm. apply Z.div_pos; lia. }
    assert (H2 : 0 <= shr_m (iter_pos shr_1 p (shr_1 mrs))).
    { rewrite IH by exact H1. apply Z.div_pos; [exact H1 |].
      apply Z.pow_pos_nonneg; lia. }
    rewrite IH by exact H2. rewrite IH by exact H1.
    rewrite shr_1_m by exact Hm.
    assert (Hp : 0 < 2 ^ Zpos p) by (apply Z.pow_pos_nonneg; lia).
    rewrite !Z.div_div by lia.
    f_equal. rewrite (Pos2Z.inj_xI p).
    replace (2 * Zpos p + 1) with (1 + Zpos p + Zpos p) by lia.
    rewrite !Z.pow_add_r by lia. change (2 ^ 1) with 2. lia.
  - assert (H2 : 0 <= shr_m (iter_pos shr_1 p mrs)).
    { rewrite IH by exact Hm. apply Z.div_pos; [exact Hm |].
      apply Z.pow_pos_nonneg; lia. }
    rewrite IH by exact H2. rewrite IH by exact Hm.
    assert (Hp : 0 < 2 ^ Zpos p) by (apply Z.pow_pos_nonneg; lia).
    rewrite !Z.div_div by lia.
    f_equal. rewrite (Pos2Z.inj_xO p).
    replace (2 * Zpos p) with (Zpos p + Zpos p) by lia.
    rewrite !Z.pow_add_r by lia. reflexivity.
  - rewrite shr_1_m by exact Hm. reflexivity.
Qed.

(** [shr] by [n] places. *)
Lemma shr_m_e (mrs : shr_record) (e n : Z) :
  0 <= shr_m mrs ->
  shr_m (fst (shr mrs e n)) = shr_m mrs / 2 ^ Z.max 0 n /\
  snd (shr mrs e n) = e + Z.max 0 n.
Proof.
  intros Hm. unfold shr. destruct n as [| p | p]; cbn [fst snd].
  - cbn. rewrite Z.div_1_r. lia.
  - rewrite iter_shr_1_m by exact Hm.
    replace (Z.max 0 (Zpos p)) with (Zpos p) by lia. split; reflexivity.
  - replace (Z.max 0 (Zneg p)) with 0 by lia. cbn. rewrite Z.div_1_r. lia.
Qed.

Lemma shr_record_of_loc_m (m : Z) (l : location) :
  shr_m (shr_record_of_loc m l) = m.
Proof. destruct l as [| []]; reflexivity. Qed.

(** After [shr_fexp] on a number with enough digits the mantissa is zero
    or canonical for the new exponent, and the magnitude is kept. *)
Lemma shr_fexp_canonical (m e : Z) (l : location) :
  0 < m -> e <= fexp (Zdigits2 m + e) ->
  let r := SpecFloat.shr_fexp prec emax m e l in
  snd r = fexp (Zdigits2 m + e) /\
  shr_m (fst r) = m / 2 ^ (fexp (Zdigits2 m + e) - e) /\
  0 <= shr_m (fst r) /\
  (0 < shr_m (fst r) ->
   fexp (Zdigits2 (shr_m (fst r)) + snd r) = snd r /\
   Zdigits2 (shr_m (fst r)) + snd r = Zdigits2 m + e) /\
  (shr_m (fst r) = 0 -> snd r = emin).
Proof.
  intros Hm Hn r. unfold r, shr_fexp.
  set (n := fexp (Zdigits2 m + e) - e).
  assert (Hn0 : 0 <= n) by (unfold n; lia).
  destruct (shr_m_e (shr_record_of_loc m l) e n) as [Hsm Hse].
  { rewrite shr_record_of_loc_m. lia. }
  rewrite shr_record_of_loc_m in Hsm.
  replace (Z.max 0 n) with n in Hsm, Hse by lia.
  rewrite Hsm, Hse.
  destruct (Zdigits2_div_pow2 m n Hm Hn0) as [Hlt Hge].
  assert (Hd := Zdigits2_pos m Hm).
  assert (Hen : e + n = fexp (Zdigits2 m + e)) by (unfold n; lia).
  split; [exact Hen |]. split; [reflexivity |].
  destruct (Z.lt_ge_cases n (Zdigits2 m)) as [H | H].
  - destruct (Hlt H) as [Hq Hdq]. clear Hlt Hge.
    split; [lia |]. split.
    + intros _. rewrite Hdq. split; [| lia]. rewrite Hen. f_equal. lia.
    + intros H0. lia.
  - specialize (Hge H). clear Hlt. rewrite Hge.
    split; [lia |]. split; [lia |].
    intros _. rewrite Hen. rewrite fexp_eq in *. lia.
Qed.

Lemma round_nearest_even_cases (m : Z) (l : location) :
  round_nearest_even m l = m \/ round_nearest_even m l = m + 1.
Proof.
  destruct l as [| []]; cbn; auto. destruct (Z.even m); auto.
Qed.

(** [binary_round_aux] on a positive number with enough digits gives a
    well-formed value. *)
Lemma binary_round_aux_valid (s : bool) (m e : Z) (l : location) :
  0 < m -> e <= fexp (Zdigits2 m + e) ->
  valid_binary prec emax (binary_round_aux prec emax s m e l) = true.
Proof.
  intros Hm Hn. unfold binary_round_aux.
  destruct (shr_fexp_canonical m e l Hm Hn) as [He1 [_ [Hm1 [Hc1 Hz1]]]].
  destruct (SpecFloat.shr_fexp prec emax m e l) as [mrs1 e1].
  cbn [fst snd] in *.
  set (m2 := round_nearest_even (shr_m mrs1) (loc_of_shr_record mrs1)).
  assert (Hm2 : m2 = shr_m mrs1 \/ m2 = shr_m mrs1 + 1)
    by apply round_nearest_even_cases.
  destruct (Z.eq_dec m2 0) as [Hz | Hnz].
  - (* nothing is left of the mantissa *)
    rewrite Hz. unfold shr_fexp. cbn [Zdigits2 shr_record_of_loc].
    destruct (shr_m_e {| shr_m := 0; shr_r := false; shr_s := false |} e1
                (SpecFloat.fexp prec emax (0 + e1) - e1)) as [H0 _];
      [cbn; lia |].
    destruct (shr _ e1 _) as [mrs2 e2]. cbn [fst snd shr_m] in H0.
    rewrite Z.div_0_l in H0
      by (apply Z.pow_nonzero; lia).
    rewrite H0. reflexivity.
  - assert (Hm2pos : 0 < m2) by lia.
    assert (Hn2 : e1 <= fexp (Zdigits2 m2 + e1)).
    { destruct (Z.eq_dec (shr_m mrs1) 0) as [H0 | H0].
      - rewrite (Hz1 H0). rewrite fexp_eq. lia.
      - assert (Hpos : 0 < shr_m mrs1) by lia.
        destruct (Hc1 Hpos) as [Hc1' _].
        assert (Zdigits2 (shr_m mrs1) <= Zdigits2 m2)
          by (apply Zdigits2_mono; lia).
        rewrite fexp_eq in *. lia. }
    destruct (shr_fexp_canonical m2 e1 loc_Exact Hm2pos Hn2)
      as [He2 [_ [Hm3 [Hc3 _]]]].
    destruct (SpecFloat.shr_fexp prec emax m2 e1 loc_Exact) as [mrs2 e2].
    cbn [fst snd] in *.
    destruct (shr_m mrs2) as [| m3 | m3] eqn:E3; [reflexivity | | reflexivity].
    destruct (Z.leb e2 (emax - prec)) eqn:Hle; [| reflexivity].
    cbn [valid_binary]. unfold bounded, canonical_mantissa.
    rewrite Hle, andb_true_r. apply Z.eqb_eq.
    apply Hc3. lia.
Qed.

(** The same run of [binary_round_aux], when the magnitude is below the
    overflow threshold: the result is a zero or a finite number of the
    given sign, whose magnitude grows by at most one. *)
Lemma binary_round_aux_magnitude (s : bool) (m e : Z) (l : location) :
  0 < m -> e <= fexp (Zdigits2 m + e) ->
  Zdigits2 m + e + 1 <= emax -> emin + prec <= emax ->
  binary_round_aux prec emax s m e l = S754_zero s \/
  exists m3 e3,
    binary_round_aux prec emax s m e l = S754_finite s m3 e3 /\
    Zpos (digits2_pos m3) + e3 <= Z.max (Zdigits2 m + e + 1) (emin + 1).
Proof.
  intros Hm Hn Hmax Hemin. unfold binary_round_aux.
  destruct (shr_fexp_canonical m e l Hm Hn) as [He1 [_ [Hm1 [Hc1 Hz1]]]].
  destruct (SpecFloat.shr_fexp prec emax m e l) as [mrs1 e1].
  cbn [fst snd] in *.
  set (m2 := round_nearest_even (shr_m mrs1) (loc_of_shr_record mrs1)).
  assert (Hm2 : m2 = shr_m mrs1 \/ m2 = shr_m mrs1 + 1)
    by apply round_nearest_even_cases.
  destruct (Z.eq_dec m2 0) as [Hz | Hnz].
  - rewrite Hz. unfold shr_fexp. cbn [Zdigits2 shr_record_of_loc].
    destruct (shr_m_e {| shr_m := 0; shr_r := false; shr_s := false |} e1
                (SpecFloat.fexp prec emax (0 + e1) - e1)) as [H0 _];
      [cbn; lia |].
    destruct (shr _ e1 _) as [mrs2 e2]. cbn [fst snd shr_m] in H0.
    rewrite Z.div_0_l in H0
      by (apply Z.pow_nonzero; lia).
    rewrite H0. left. reflexivity.
  - assert (Hm2pos : 0 < m2) by lia.
    (* the magnitude after rounding to nearest *)
    assert (Hmag2 : Zdigits2 m2 + e1 <= Z.max (Zdigits2 m + e + 1) (emin + 1)
                    /\ e1 <= fexp (Zdigits2 m2 + e1)).
    { destruct (Z.eq_dec (shr_m mrs1) 0) as [H0 | H0].
      - rewrite (Hz1 H0). assert (m2 = 1) by lia. subst m2.
        replace (round_nearest_even _ _) with 1. cbn [Zdigits2 digits2_pos].
        rewrite fexp_eq. lia.
      - assert (Hpos : 0 < shr_m mrs1) by lia.
        destruct (Hc1 Hpos) as [Hc1' Hmg].
        assert (Hlo : Zdigits2 (shr_m mrs1) <= Zdigits2 m2)
          by (apply Zdigits2_mono; lia).
        assert (Hhi : Zdigits2 m2 <= Zdigits2 (shr_m mrs1) + 1).
        { destruct (Zdigits2_bounds _ Hpos) as [_ Hb].
          destruct m2 as [| p2 | p2]; try lia. cbn [Zdigits2].
          assert (H0' := Zdigits2_nonneg (shr_m mrs1)).
          apply digits2_pos_le; [lia |].
          rewrite Z.pow_add_r by lia. change (2 ^ 1) with 2. lia. }
        rewrite fexp_eq in *. lia. }
    destruct Hmag2 as [Hmag2 Hn2].
    destruct (shr_fexp_canonical m2 e1 loc_Exact Hm2pos Hn2)
      as [He2 [_ [Hm3 [Hc3 _]]]].
    destruct (SpecFloat.shr_fexp prec emax m2 e1 loc_Exact) as [mrs2 e2].
    cbn [fst snd] in *.
    destruct (shr_m mrs2) as [| m3 | m3] eqn:E3;
      [left; reflexivity | | lia].
    destruct Hc3 as [_ Hc3]; [lia |]. cbn [Zdigits2] in Hc3.
    replace (Z.leb e2 (emax - prec)) with true.
    + right. exists m3, e2. split; [reflexivity | lia].
    + symmetry. apply Z.leb_le. rewrite He2, fexp_eq. lia.
Qed.

(** In the normal range the result is finite and not zero; its magnitude
    is that of the argument, or one more when the mantissa was rounded up
    to a power of two. *)
Lemma binary_round_aux_normal (s : bool) (m e : Z) (l : location) :
  0 < m -> e <= fexp (Zdigits2 m + e) ->
  emin <= Zdigits2 m + e - prec -> Zdigits2 m + e + 1 <= emax ->
  exists m3 e3,
    binary_round_aux prec emax s m e l = S754_finite s m3 e3 /\
    (Zpos (digits2_pos m3) + e3 = Zdigits2 m + e \/
     (Zpos (digits2_pos m3) + e3 = Zdigits2 m + e + 1 /\
      Zpos m3 = 2 ^ (Zpos (digits2_pos m3) - 1))).
Proof.
  intros Hm Hn Hnorm Hmax. unfold binary_round_aux.
  destruct (shr_fexp_canonical m e l Hm Hn) as [He1 [Hq1 [Hm1 [Hc1 _]]]].
  destruct (SpecFloat.shr_fexp prec emax m e l) as [mrs1 e1].
  cbn [fst snd] in *.
  assert (Hd := Zdigits2_pos m Hm).
  assert (Hf : fexp (Zdigits2 m + e) = Zdigits2 m + e - prec)
    by (rewrite fexp_eq; lia).
  (* the first shift leaves [prec] digits *)
  assert (Hn1 : 0 <= fexp (Zdigits2 m + e) - e) by lia.
  destruct (Zdigits2_div_pow2 m _ Hm Hn1) as [Hlt _].
  destruct Hlt as [Hpos1 Hd1]; [lia |].
  rewrite <- Hq1 in Hpos1, Hd1.
  assert (Hd1' : Zdigits2 (shr_m mrs1) = prec) by lia.
  destruct (Hc1 Hpos1) as [Hcan1 Hmag1].
  set (m2 := round_nearest_even (shr_m mrs1) (loc_of_shr_record mrs1)).
  assert (Hm2 : m2 = shr_m mrs1 \/ m2 = shr_m mrs1 + 1)
    by apply round_nearest_even_cases.
  assert (Hm2pos : 0 < m2) by lia.
  destruct (Zdigits2_bounds _ Hpos1) as [Hb1 Hb2]. rewrite Hd1' in Hb1, Hb2.
  assert (Hp : 2 ^ prec = 2 * 2 ^ (prec - 1)).
  { replace prec with (1 + (prec - 1)) at 1 by lia.
    rewrite Z.pow_add_r by lia. reflexivity. }
  destruct (Z.eq_dec m2 (2 ^ prec)) as [Hpow | Hnpow].
  - (* rounded up to the next power of two *)
    assert (Hd2 : Zdigits2 m2 = prec + 1).
    { apply Zdigits2_unique; [| lia | lia].
      replace (prec + 1 - 1) with prec by lia.
      rewrite Hpow. split; [lia |].
      rewrite Z.pow_add_r by lia. change (2 ^ 1) with 2. lia. }
    assert (Hn2 : e1 <= fexp (Zdigits2 m2 + e1)) by (rewrite fexp_eq; lia).
    destruct (shr_fexp_canonical m2 e1 loc_Exact Hm2pos Hn2)
      as [He2 [Hq2 _]].
    destruct (SpecFloat.shr_fexp prec emax m2 e1 loc_Exact) as [mrs2 e2].
    cbn [fst snd] in *.
    assert (He2' : e2 = e1 + 1) by (rewrite He2, fexp_eq; lia).
    assert (Hm3 : shr_m mrs2 = 2 ^ (prec - 1)).
    { rewrite Hq2, <- He2. replace (e2 - e1) with 1 by lia.
      rewrite Hpow, Hp. change (2 ^ 1) with 2.
      rewrite Z.mul_comm. apply Z.div_mul. lia. }
    assert (H3pos : 0 < 2 ^ (prec - 1)) by (apply Z.pow_pos_nonneg; lia).
    destruct (shr_m mrs2) as [| m3 | m3] eqn:E3; try lia.
    assert (Hd3 : Zpos (digits2_pos m3) = prec).
    { change (Zdigits2 (Zpos m3) = prec).
      apply Zdigits2_unique; [| lia | lia]. rewrite Hm3. lia. }
    replace (Z.leb e2 (emax - prec)) with true
      by (symmetry; apply Z.leb_le; lia).
    exists m3, e2. split; [reflexivity |]. right. rewrite Hd3.
    split; [lia | exact Hm3].
  - (* the number of digits is unchanged *)
    assert (Hd2 : Zdigits2 m2 = prec).
    { apply Zdigits2_unique; [| lia | lia]. split; lia. }
    assert (Hn2 : e1 <= fexp (Zdigits2 m2 + e1)) by (rewrite fexp_eq; lia).
    destruct (shr_fexp_canonical m2 e1 loc_Exact Hm2pos Hn2)
      as [He2 [Hq2 _]].
    destruct (SpecFloat.shr_fexp prec emax m2 e1 loc_Exact) as [mrs2 e2].
    cbn [fst snd] in *.
    assert (He2' : e2 = e1) by (rewrite He2, fexp_eq; lia).
    assert (Hm3 : shr_m mrs2 = m2).
    { rewrite Hq2, <- He2, He2', Z.sub_diag. change (2 ^ 0) with 1.
      apply Z.div_1_r. }
    destruct (shr_m mrs2) as [| m3 | m3] eqn:E3; try lia.
    replace (Z.leb e2 (emax - prec)) with true
      by (symmetry; apply Z.leb_le; lia).
    exists m3, e2. split; [reflexivity |]. left.
    change (Zdigits2 (Zpos m3) + e2 = Zdigits2 m + e). rewrite Hm3. lia.
Qed.

(** The same for [binary_round], which first aligns the mantissa. *)
Lemma binary_round_normal (s : bool) (m : positive) (e : Z) :
  emin <= Zpos (digits2_pos m) + e - prec ->
  Zpos (digits2_pos m) + e + 1 <= emax ->
  exists m3 e3,
    binary_round prec emax s m e = S754_finite s m3 e3 /\
    (Zpos (digits2_pos m3) + e3 = Zpos (digits2_pos m) + e \/
     (Zpos (digits2_pos m3) + e3 = Zpos (digits2_pos m) + e + 1 /\
      Zpos m3 = 2 ^ (Zpos (digits2_pos m3) - 1))).
Proof.
  intros Hnorm Hmax.
  set (e' := SpecFloat.fexp prec emax (Zpos (digits2_pos m) + e)).
  assert (He' : e' = Zpos (digits2_pos m) + e - prec).
  { unfold e'. rewrite fexp_eq. lia. }
  destruct (Z.le_gt_cases e' e) as [Hle | Hgt].
  - rewrite binary_round_exact; fold e'; [| exact Hle | lia].
    destruct (shl_align_le m e e' Hle) as [_ [_ Hd]].
    eexists _, _. split; [reflexivity |]. left. exact Hd.
  - unfold binary_round, shl_align. fold e'.
    destruct (e' - e) as [| d | d] eqn:Hd; try lia.
    apply binary_round_aux_normal; cbn [Zdigits2]; try lia.
    all: rewrite fexp_eq; lia.
Qed.

(** [binary_round_aux] on a mantissa that is zero gives a zero or the
    smallest mantissa. *)
Lemma binary_round_aux_0 (s : bool) (e : Z) (l : location) :
  e <= emax - prec -> emin + prec <= emax ->
  binary_round_aux prec emax s 0 e l = S754_zero s \/
  exists e3,
    binary_round_aux prec emax s 0 e l = S754_finite s 1 e3 /\
    e3 <= Z.max e emin.
Proof.
  intros He Hemin. unfold binary_round_aux.
  assert (H1 : shr_m (fst (SpecFloat.shr_fexp prec emax 0 e l)) = 0 /\
               snd (SpecFloat.shr_fexp prec emax 0 e l) <= Z.max e emin).
  { unfold shr_fexp. cbn [Zdigits2].
    destruct (shr_m_e (shr_record_of_loc 0 l) e
                (SpecFloat.fexp prec emax (0 + e) - e)) as [H1 H1e];
      [rewrite shr_record_of_loc_m; lia |].
    rewrite shr_record_of_loc_m in H1.
    rewrite Z.div_0_l in H1 by (apply Z.pow_nonzero; lia).
    split; [exact H1 |]. rewrite H1e.
    rewrite fexp_eq. lia. }
  destruct (SpecFloat.shr_fexp prec emax 0 e l) as [mrs1 e1].
  cbn [fst snd] in H1. destruct H1 as [H1 He1]. rewrite H1.
  destruct (round_nearest_even_cases 0 (loc_of_shr_record mrs1)) as [-> | ->].
  - unfold shr_fexp. cbn [Zdigits2 shr_record_of_loc].
    destruct (shr_m_e {| shr_m := 0; shr_r := false; shr_s := false |} e1
                (SpecFloat.fexp prec emax (0 + e1) - e1)) as [H0 _];
      [cbn; lia |].
    destruct (shr _ e1 _) as [mrs2 e2]. cbn [fst snd shr_m] in H0.
    rewrite Z.div_0_l in H0 by (apply Z.pow_nonzero; lia).
    rewrite H0. left. reflexivity.
  - change (0 + 1) with 1. unfold shr_fexp.
    cbn [Zdigits2 digits2_pos shr_record_of_loc].
    set (n2 := SpecFloat.fexp prec emax (1 + e1) - e1).
    destruct (shr_m_e {| shr_m := 1; shr_r := false; shr_s := false |} e1 n2)
      as [H2 H2e]; [cbn; lia |].
    destruct (shr _ e1 n2) as [mrs2 e2]. cbn [fst snd shr_m] in *.
    destruct (Z.le_gt_cases n2 0) as [Hn2 | Hn2].
    + replace (Z.max 0 n2) with 0 in * by lia.
      change (2 ^ 0) with 1 in H2. rewrite Z.div_1_r in H2. rewrite H2.
      replace (Z.leb e2 (emax - prec)) with true
        by (symmetry; apply Z.leb_le; lia).
      right. exists e2. split; [reflexivity | lia].
    + replace (Z.max 0 n2) with n2 in * by lia.
      rewrite Z.div_small in H2.
      * rewrite H2. left. reflexivity.
      * split; [lia |]. change 1 with (2 ^ 0) at 1.
        apply Z.pow_lt_mono_r; lia.
Qed.

(** The quotient of two finite numbers is a zero or a finite number whose
    magnitude exceeds the difference of the magnitudes by at most two. *)
Lemma SFdiv_finite_magnitude (sx : bool) (mx : positive) (ex : Z)
  (sy : bool) (my : positive) (ey : Z) :
  Zpos (digits2_pos mx) + ex - (Zpos (digits2_pos my) + ey) + 2 <= emax ->
  emin + prec <= emax ->
  SFdiv prec emax (S754_finite sx mx ex) (S754_finite sy my ey) =
    S754_zero (xorb sx sy) \/
  exists m3 e3,
    SFdiv prec emax (S754_finite sx mx ex) (S754_finite sy my ey) =
      S754_finite (xorb sx sy) m3 e3 /\
    Zpos (digits2_pos m3) + e3 <=
      Z.max (Zpos (digits2_pos mx) + ex - (Zpos (digits2_pos my) + ey) + 2)
            (emin + 1).
Proof.
  intros Hmax Hemin. unfold SFdiv, SFdiv_core_binary. cbn [Zdigits2].
  set (d1 := Zpos (digits2_pos mx)) in *.
  set (d2 := Zpos (digits2_pos my)) in *.
  set (k := d1 + ex - (d2 + ey)) in *.
  set (e' := Z.min (fexp k) (ex - ey)).
  assert (He' : e' <= fexp k /\ e' <= ex - ey) by (unfold e'; lia).
  set (sh := ex - ey - e').
  assert (Hsh : 0 <= sh) by (unfold sh; lia).
  set (m' := match sh with
             | 0 => Zpos mx
             | Zpos _ => Z.shiftl (Zpos mx) sh
             | Zneg _ => 0
             end).
  assert (Hm' : m' = Zpos mx * 2 ^ sh).
  { unfold m'. clearbody sh. destruct sh as [| p | p]; try lia.
    apply Z.shiftl_mul_pow2. lia. }
  destruct (digits2_pos_bounds mx) as [Hx1 Hx2]. fold d1 in Hx1, Hx2.
  destruct (digits2_pos_bounds my) as [Hy1 Hy2]. fold d2 in Hy1, Hy2.
  assert (Hd1 : 0 < d1) by (unfold d1; lia).
  assert (Hd2 : 0 < d2) by (unfold d2; lia).
  assert (Hpsh : 0 < 2 ^ sh) by (apply Z.pow_pos_nonneg; lia).
  (* bounds of the shifted dividend *)
  assert (Hm1 : 2 ^ (d1 + sh - 1) <= m' < 2 ^ (d1 + sh)).
  { rewrite Hm'. replace (d1 + sh - 1) with (d1 - 1 + sh) by lia.
    rewrite !Z.pow_add_r by lia. nia. }
  pose proof (Z.div_eucl_eq m' (Zpos my) ltac:(lia)) as Hdiv.
  pose proof (Z.mod_pos_bound m' (Zpos my) ltac:(lia)) as Hmod.
  unfold Z.modulo in Hmod.
  destruct (Z.div_eucl m' (Zpos my)) as [q r].
  assert (Hq0 : 0 <= q) by nia.
  assert (Hfk : fexp k <= emax - prec) by (rewrite fexp_eq; lia).
  destruct (Z.eq_dec q 0) as [-> | Hqn].
  - destruct (binary_round_aux_0 (xorb sx sy) e' (new_location (Zpos my) r))
      as [H | [e3 [H Hb]]]; try lia.
    + left. exact H.
    + right. exists 1%positive, e3. split; [exact H |].
      cbn [digits2_pos]. rewrite fexp_eq in *. lia.
  - assert (Hq : 0 < q) by lia.
    (* the quotient has between [d1 + sh - d2] and one more digits *)
    assert (Hge : Zpos my <= m') by nia.
    assert (Hdd : d2 <= d1 + sh).
    { destruct (Z.le_gt_cases d2 (d1 + sh)) as [H | H]; [exact H |].
      assert (2 ^ (d1 + sh) <= 2 ^ (d2 - 1))
        by (apply Z.pow_le_mono_r; lia).
      lia. }
    assert (Hqhi : q < 2 ^ (d1 + sh - d2 + 1)).
    { assert (2 ^ (d1 + sh) = 2 ^ (d2 - 1) * 2 ^ (d1 + sh - d2 + 1)).
      { rewrite <- Z.pow_add_r by lia. f_equal. lia. }
      assert (0 < 2 ^ (d1 + sh - d2 + 1)) by (apply Z.pow_pos_nonneg; lia).
      nia. }
    assert (Hqlo : d1 + sh - d2 <= Zdigits2 q).
    { destruct (Z.eq_dec (d1 + sh) d2) as [H | H].
      - assert (H0 := Zdigits2_pos q Hq). lia.
      - assert (Hlow : 2 ^ (d1 + sh - d2 - 1) <= q).
        { assert (2 ^ (d1 + sh - 1) = 2 ^ d2 * 2 ^ (d1 + sh - d2 - 1)).
          { rewrite <- Z.pow_add_r by lia. f_equal. lia. }
          assert (0 < 2 ^ (d1 + sh - d2 - 1))
            by (apply Z.pow_pos_nonneg; lia).
          nia. }
        destruct q as [| pq | pq]; try lia. cbn [Zdigits2].
        assert (H1 := digits2_pos_ge pq _ Hlow). lia. }
    assert (Hqhi' : Zdigits2 q <= d1 + sh - d2 + 1).
    { destruct q as [| pq | pq]; try lia. cbn [Zdigits2].
      apply digits2_pos_le; [lia | exact Hqhi]. }
    assert (Hk : d1 + sh - d2 + e' = k) by (unfold sh, k; lia).
    destruct (binary_round_aux_magnitude (xorb sx sy) q e'
                (new_location (Zpos my) r)) as [H | [m3 [e3 [H Hb]]]];
      try lia.
    + rewrite fexp_eq in *. lia.
    + left. exact H.
    + right. exists m3, e3. split; [exact H | lia].
Qed.

(** [binary_round] always gives a well-formed value. *)
Lemma binary_round_valid (s : bool) (m : positive) (e : Z) :
  valid_binary prec emax (binary_round prec emax s m e) = true.
Proof.
  unfold binary_round.
  set (e' := SpecFloat.fexp prec emax (Zpos (digits2_pos m) + e)).
  destruct (Z.le_gt_cases e' e) as [Hle | Hgt].
  - destruct (shl_align_le m e e' Hle) as [He [_ Hd]].
    destruct (shl_align m e e') as [mz ez]. cbn [fst snd] in *. subst ez.
    apply binary_round_aux_valid; [lia |].
    cbn [Zdigits2]. rewrite Hd. fold e'. lia.
  - unfold shl_align. destruct (e' - e) as [| d | d] eqn:Hd; try lia.
    apply binary_round_aux_valid; [lia |].
    cbn [Zdigits2]. fold e'. lia.
Qed.

Lemma binary_normalize_valid (m e : Z) (szero : bool) :
  valid_binary prec emax (binary_normalize prec emax m e szero) = true.
Proof.
  destruct m as [| p | p]; cbn [binary_normalize];
    [reflexivity | apply binary_round_valid ..].
Qed.

End RoundValid.

(* ===================================================================== *)
(** ** The arithmetic of [OnMouseDown] keeps well-formed values *)
(* ===================================================================== *)

Lemma round_to_valid (prec emax : Z) (x : spec_float) :
  0 < prec -> valid_binary prec emax (round_to prec emax x) = true.
Proof.
  intros Hp. destruct x as [s | s | | s m e]; try reflexivity.
  apply binary_round_valid; exact Hp.
Qed.

Lemma float_to_double_valid (x : float) : is_double (float_to_double x) = true.
Proof. apply round_to_valid. reflexivity. Qed.

Lemma fadd64_valid (x y : double) :
  is_double x = true -> is_double y = true -> is_double (fadd64 x y) = true.
Proof.
  intros Hx Hy. unfold fadd64, SFadd.
  destruct x as [sx | sx | | sx mx ex]; destruct y as [sy | sy | | sy my ey];
    try reflexivity; try exact Hx; try exact Hy;
    try (destruct sx, sy; reflexivity).
  apply binary_normalize_valid. reflexivity.
Qed.

(** A canonical binary64 mantissa has at most 53 digits and an exponent
    of at least -1074. *)
Lemma is_double_finite (s : bool) (m : positive) (e : Z) :
  is_double (S754_finite s m e) = true ->
  Zpos (digits2_pos m) <= 53 /\ -1074 <= e /\
  fexp prec64 emax64 (Zpos (digits2_pos m) + e) = e.
Proof.
  unfold is_double, valid_binary, bounded, canonical_mantissa.
  intros H. apply andb_prop in H. destruct H as [Hc _].
  apply Z.eqb_eq in Hc. split; [| split; [| exact Hc]].
  - unfold fexp, emin, prec64, emax64 in Hc. lia.
  - unfold fexp, emin, prec64, emax64 in Hc. lia.
Qed.

Lemma in_unit_interval_finite (m : positive) (e : Z) :
  e < -52 \/ (e = -52 /\ Zpos m <= 2 ^ 52) ->
  in_unit_interval (S754_finite false m e) = true.
Proof.
  intros H. unfold in_unit_interval. rewrite one_d_eq.
  unfold zero_d, SFleb. cbn [SFcompare andb].
  destruct H as [H | [-> H]].
  - destruct (Z.compare_spec e (-52)); [lia | reflexivity | lia].
  - rewrite Z.compare_refl.
    destruct (Pos.compare_cont Eq m 4503599627370496) eqn:Hc;
      try reflexivity.
    apply (Pos.compare_gt_iff m 4503599627370496) in Hc.
    change (2 ^ 52) with 4503599627370496 in H. lia.
Qed.

(** [fmod(1., y)] for a well-formed [y] is NaN, when [y] is zero or NaN,
    and otherwise lies in [[0, 1]]. *)
Lemma fmod_one_d (y : double) :
  is_double y = true ->
  match y with
  | S754_nan | S754_zero _ => fmod one_d y = S754_nan
  | _ => in_unit_interval (fmod one_d y) = true
  end.
Proof.
  intros Hy. rewrite one_d_eq.
  destruct y as [sy | sy | | sy my ey]; try reflexivity.
  apply is_double_finite in Hy. destruct Hy as [Hd [He Hc]].
  unfold fmod.
  set (ez := Z.min (-52) ey).
  destruct (shl_align_le 4503599627370496 (-52) ez) as [_ [Hax _]];
    [unfold ez; lia |].
  destruct (shl_align_le my ey ez) as [_ [Hay _]]; [unfold ez; lia |].
  set (ax := Zpos (fst (shl_align 4503599627370496 (-52) ez))) in *.
  set (ay := Zpos (fst (shl_align my ey ez))) in *.
  assert (Hax' : ax = 2 ^ (- ez)).
  { rewrite Hax. change 4503599627370496 with (2 ^ 52).
    rewrite <- Z.pow_add_r by (unfold ez; lia). f_equal. lia. }
  assert (Hrem : 0 <= Z.rem ax ay < ay)
    by (apply Z.rem_bound_pos; unfold ax, ay; lia).
  assert (Hrem' : Z.rem ax ay <= ax)
    by (apply Z.rem_le; unfold ax, ay; lia).
  cbn [cond_Zopp].
  destruct (Z.rem ax ay) as [| p | p] eqn:Hr; [reflexivity | | lia].
  cbn [binary_normalize].
  (* the remainder fits in 53 binary digits *)
  assert (Hp53 : Zpos p < 2 ^ 53).
  { destruct (Z.le_gt_cases ey (-52)) as [Hey | Hey].
    - assert (ez = ey) by (unfold ez; lia).
      assert (Hmy : Zpos my < 2 ^ 53).
      { destruct (digits2_pos_bounds my) as [_ Hhi].
        assert (2 ^ Zpos (digits2_pos my) <= 2 ^ 53)
          by (apply Z.pow_le_mono_r; lia).
        lia. }
      rewrite Hay in Hrem. replace (ey - ez) with 0 in Hrem by lia.
      change (2 ^ 0) with 1 in Hrem. lia.
    - assert (Hez : ez = -52) by (unfold ez; lia).
      rewrite Hax', Hez in Hrem'. change (2 ^ (- -52)) with (2 ^ 52) in Hrem'.
      change (2 ^ 52) with 4503599627370496 in Hrem'.
      change (2 ^ 53) with 9007199254740992. lia. }
  assert (Hdp : Zpos (digits2_pos p) <= 53)
    by (apply digits2_pos_le; [lia | exact Hp53]).
  assert (Hez : -1074 <= ez <= -52) by (unfold ez; lia).
  (* its magnitude is at most that of 1 *)
  assert (Hmag : Zpos (digits2_pos p) + ez <= 1).
  { destruct (digits2_pos_bounds p) as [Hlo _].
    rewrite Hax' in Hrem'.
    destruct (Z.le_gt_cases (Zpos (digits2_pos p)) (1 - ez)) as [H | H];
      [lia |].
    assert (2 ^ (1 - ez) <= 2 ^ (Zpos (digits2_pos p) - 1))
      by (apply Z.pow_le_mono_r; lia).
    assert (2 ^ (- ez) < 2 ^ (1 - ez))
      by (apply Z.pow_lt_mono_r; lia).
    lia. }
  set (e' := fexp prec64 emax64 (Zpos (digits2_pos p) + ez)).
  assert (He' : e' = Z.max (Zpos (digits2_pos p) + ez - 53) (-1074))
    by reflexivity.
  rewrite binary_round_exact;
    fold e'; [| lia | unfold emax64, prec64; lia].
  destruct (shl_align_le p ez e') as [_ [Hmz _]]; [lia |].
  apply in_unit_interval_finite.
  destruct (Z.lt_ge_cases e' (-52)) as [Hlt | Hge]; [left; exact Hlt |].
  right. assert (He52 : e' = -52) by lia. split; [exact He52 |].
  rewrite Hmz, He52.
  (* the remainder is 1 itself *)
  assert (Hdig : Zpos (digits2_pos p) = 1 - ez) by lia.
  destruct (digits2_pos_bounds p) as [Hlo _].
  rewrite Hdig in Hlo. replace (1 - ez - 1) with (- ez) in Hlo by lia.
  rewrite Hax' in Hrem'.
  assert (Hpe : Zpos p = 2 ^ (- ez)) by lia.
  rewrite Hpe, <- Z.pow_add_r by lia.
  apply Z.pow_le_mono_r; lia.
Qed.

(* ===================================================================== *)
(** ** The step [1.f/float(n) - 1.] *)
(* ===================================================================== *)

Lemma one_f_eq : one_f = S754_finite false 8388608 (-23).
Proof. vm_compute; reflexivity. Qed.

(** A canonical binary32 mantissa in the normal range has 24 digits. *)
Lemma is_float_finite (s : bool) (m : positive) (e : Z) :
  is_float (S754_finite s m e) = true ->
  Zpos (digits2_pos m) <= 24 /\ -149 <= e <= 104 /\
  (-149 < e -> Zpos (digits2_pos m) = 24).
Proof.
  unfold is_float, valid_binary, bounded, canonical_mantissa.
  intros H. apply andb_prop in H. destruct H as [Hc Hb].
  apply Z.eqb_eq in Hc. apply Z.leb_le in Hb.
  unfold fexp, emin, prec32, emax32 in *. lia.
Qed.

(** [float(n)] for [2 <= n <= UINT32_MAX] is a number of magnitude 2 to
    33. *)
Lemma uint32_to_float_range (n : Z) :
  2 <= n <= UINT32_MAX ->
  exists m e,
    uint32_to_float n = S754_finite false m e /\
    is_float (S754_finite false m e) = true /\
    2 <= magnitude m e <= 33.
Proof.
  intros [Hlo Hhi]. destruct n as [| p | p]; try lia.
  unfold uint32_to_float. cbn [binary_normalize].
  assert (Hd2 : 2 <= Zpos (digits2_pos p))
    by (apply (digits2_pos_ge p 1); exact Hlo).
  assert (Hd32 : Zpos (digits2_pos p) <= 32).
  { apply digits2_pos_le; [lia |]. unfold UINT32_MAX in Hhi.
    change (2 ^ 32) with 4294967296. lia. }
  assert (Hv := binary_round_valid prec32 emax32 ltac:(reflexivity) false p 0).
  destruct (binary_round_normal prec32 emax32 ltac:(reflexivity) false p 0)
    as [m [e [Hr Hmag]]].
  - unfold emin, prec32, emax32. lia.
  - unfold emax32. lia.
  - rewrite Hr in *. exists m, e. split; [reflexivity |].
    split; [exact Hv |]. unfold magnitude. lia.
Qed.

(** [1.f / y] for a [float] [y] of magnitude 2 to 33 is at most one half:
    its magnitude is below 0, or it is 0 with a mantissa that is a power
    of two. *)
Lemma fdiv32_one_f_range (m2 : positive) (e2 : Z) :
  is_float (S754_finite false m2 e2) = true ->
  2 <= magnitude m2 e2 <= 33 ->
  exists m e,
    fdiv32 one_f (S754_finite false m2 e2) = S754_finite false m e /\
    is_float (S754_finite false m e) = true /\
    -32 <= magnitude m e /\
    (magnitude m e <= -1 \/
     (magnitude m e = 0 /\ Zpos m = 2 ^ (Zpos (digits2_pos m) - 1))).
Proof.
  intros Hv Hmag. unfold magnitude in *.
  destruct (is_float_finite _ _ _ Hv) as [Hd [He Hn]].
  assert (Hd24 : Zpos (digits2_pos m2) = 24) by (apply Hn; lia).
  destruct (digits2_pos_bounds m2) as [Hb1 Hb2].
  rewrite Hd24 in Hb1, Hb2.
  change (2 ^ (24 - 1)) with 8388608 in Hb1.
  change (2 ^ 24) with 16777216 in Hb2.
  destruct (Z.eq_dec e2 (-22)) as [He22 | He22];
    [destruct (Z.eq_dec (Zpos m2) 8388608) as [Hm2 | Hm2] |].
  - (* y = 2 *)
    subst e2. injection Hm2 as ->.
    exists 8388608%positive, (-24). repeat split; try (left; lia); try lia.
    right. split; reflexivity.
  - (* 2 < y < 4 *)
    subst e2.
    rewrite one_f_eq. unfold fdiv32, SFdiv, SFdiv_core_binary.
    cbn [xorb Zdigits2]. rewrite Hd24.
    change (Zpos (digits2_pos 8388608)) with 24.
    change (Z.min (fexp prec32 emax32 (24 + -23 - (24 + -22))) (-23 - -22))
      with (-25).
    change (-23 - -22 - -25) with 24.
    change (Z.shiftl 8388608 24) with 140737488355328.
    pose proof (Z.div_eucl_eq 140737488355328 (Zpos m2) ltac:(lia)) as Hdiv.
    pose proof (Z.mod_pos_bound 140737488355328 (Zpos m2) ltac:(lia)) as Hmod.
    unfold Z.modulo in Hmod.
    destruct (Z.div_eucl 140737488355328 (Zpos m2)) as [q r].
    assert (Hq : 8388608 <= q < 16777216) by nia.
    destruct q as [| q | q]; try lia.
    assert (Hdq : Zpos (digits2_pos q) = 24)
      by (apply digits2_pos_eq; [lia |]; exact Hq).
    assert (Hva := binary_round_aux_valid prec32 emax32 ltac:(reflexivity)
                     false (Zpos q) (-25) (new_location (Zpos m2) r)
                     ltac:(lia)).
    destruct (binary_round_aux_normal prec32 emax32 ltac:(reflexivity)
                false (Zpos q) (-25) (new_location (Zpos m2) r))
      as [m [e [Hr Hm]]]; cbn [Zdigits2]; rewrite ?Hdq;
      try (unfold fexp, emin, prec32, emax32; lia).
    rewrite Hr in *. exists m, e. split; [reflexivity |].
    split; [apply Hva; cbn [Zdigits2]; rewrite Hdq;
            unfold fexp, emin, prec32, emax32; lia |].
    cbn [Zdigits2] in Hm. rewrite Hdq in Hm.
    split; [lia |]. destruct Hm as [Hm | [Hm Hp]]; [left; lia |].
    right. split; [lia | exact Hp].
  - (* 4 <= y *)
    rewrite one_f_eq. unfold fdiv32, SFdiv, SFdiv_core_binary.
    cbn [xorb Zdigits2]. rewrite Hd24.
    change (Zpos (digits2_pos 8388608)) with 24.
    replace (Z.min (fexp prec32 emax32 (24 + -23 - (24 + e2))) (-23 - e2))
      with (-47 - e2) by (unfold fexp, emin, prec32, emax32; lia).
    replace (-23 - e2 - (-47 - e2)) with 24 by lia.
    change (Z.shiftl 8388608 24) with 140737488355328.
    pose proof (Z.div_eucl_eq 140737488355328 (Zpos m2) ltac:(lia)) as Hdiv.
    pose proof (Z.mod_pos_bound 140737488355328 (Zpos m2) ltac:(lia)) as Hmod.
    unfold Z.modulo in Hmod.
    destruct (Z.div_eucl 140737488355328 (Zpos m2)) as [q r].
    assert (Hq : 8388608 <= q <= 16777216) by nia.
    destruct q as [| q | q]; try lia.
    assert (Hdq : 24 <= Zpos (digits2_pos q) <= 25).
    { split.
      - apply (digits2_pos_ge q 23). change (2 ^ 23) with 8388608. lia.
      - apply digits2_pos_le; [lia |]. change (2 ^ 25) with 33554432. lia. }
    assert (Hva := binary_round_aux_valid prec32 emax32 ltac:(reflexivity)
                     false (Zpos q) (-47 - e2) (new_location (Zpos m2) r)
                     ltac:(lia)).
    destruct (binary_round_aux_normal prec32 emax32 ltac:(reflexivity)
                false (Zpos q) (-47 - e2) (new_location (Zpos m2) r))
      as [m [e [Hr Hm]]]; cbn [Zdigits2];
      try (unfold fexp, emin, prec32, emax32; lia).
    rewrite Hr in *. exists m, e. split; [reflexivity |].
    split; [apply Hva; cbn [Zdigits2];
            unfold fexp, emin, prec32, emax32; lia |].
    cbn [Zdigits2] in Hm.
    split; [lia |]. destruct Hm as [Hm | [Hm Hp]]; [left; lia |].
    destruct (Z.eq_dec (Zpos (digits2_pos m) + e) 0) as [H0 | H0];
      [right; split; [exact H0 | exact Hp] | left; lia].
Qed.

(** The promotion of a [float] to [double] is exact: the value and the
    magnitude are kept. *)
Lemma float_to_double_finite (s : bool) (m : positive) (e : Z) :
  is_float (S754_finite s m e) = true ->
  exists mz ez,
    float_to_double (S754_finite s m e) = S754_finite s mz ez /\
    is_double (S754_finite s mz ez) = true /\
    ez <= e /\
    Zpos mz = Zpos m * 2 ^ (e - ez) /\
    magnitude mz ez = magnitude m e.
Proof.
  intros Hv. destruct (is_float_finite _ _ _ Hv) as [Hd [He _]].
  unfold float_to_double, round_to.
  set (ez := fexp prec64 emax64 (Zpos (digits2_pos m) + e)).
  assert (Hez : ez = Z.max (Zpos (digits2_pos m) + e - 53) (-1074))
    by reflexivity.
  assert (Hv64 := binary_round_valid prec64 emax64 ltac:(reflexivity) s m e).
  rewrite binary_round_exact in *; fold ez;
    try (unfold emax64, prec64; lia).
  destruct (shl_align_le m e ez) as [_ [Hm Hdig]]; [lia |].
  eexists _, _. split; [reflexivity |]. split; [exact Hv64 |].
  split; [lia |]. split; [exact Hm |]. exact Hdig.
Qed.

(** [q - 1.] for a [double] [q] with [0 < q <= 1/2] lies in
    [[-1, -1/2]]. *)
Lemma fsub64_one_d_range (m : positive) (e : Z) :
  is_double (S754_finite false m e) = true ->
  -32 <= magnitude m e ->
  (magnitude m e <= -1 \/
   (magnitude m e = 0 /\ Zpos m = 2 ^ (Zpos (digits2_pos m) - 1))) ->
  exists md ed,
    fsub64 (S754_finite false m e) one_d = S754_finite true md ed /\
    is_double (S754_finite true md ed) = true /\
    (magnitude md ed = 0 \/ (md = 4503599627370496%positive /\ ed = -52)).
Proof.
  intros Hv Hlo Hhi. unfold magnitude in *.
  destruct (is_double_finite _ _ _ Hv) as [Hd [He Hc]].
  assert (Hd53 : Zpos (digits2_pos m) = 53).
  { unfold fexp, emin, prec64, emax64 in Hc. lia. }
  assert (He53 : e <= -53) by lia.
  destruct (digits2_pos_bounds m) as [Hb1 Hb2]. rewrite Hd53 in Hb1, Hb2.
  rewrite one_d_eq. unfold fsub64, SFsub.
  replace (Z.min e (-52)) with e by lia.
  destruct (shl_align_le m e e) as [_ [Hax _]]; [lia |].
  destruct (shl_align_le 4503599627370496 (-52) e) as [_ [Hbx _]]; [lia |].
  cbn [cond_Zopp]. rewrite Hax, Hbx.
  rewrite Z.sub_diag. change (2 ^ 0) with 1. rewrite Z.mul_1_r.
  change 4503599627370496 with (2 ^ 52) at 1.
  rewrite <- Z.pow_add_r by lia.
  replace (52 + (-52 - e)) with (- e) by lia.
  (* 2^(-e-1) <= 2^(-e) - m < 2^(-e) *)
  assert (Hp : 2 ^ (- e) = 2 * 2 ^ (- e - 1)).
  { replace (- e) with (1 + (- e - 1)) at 1 by lia.
    rewrite Z.pow_add_r by lia. reflexivity. }
  assert (Hm : Zpos m <= 2 ^ (- e - 1)).
  { destruct Hhi as [Hhi | [Hhi Hpow]].
    - assert (2 ^ 53 <= 2 ^ (- e - 1)) by (apply Z.pow_le_mono_r; lia).
      lia.
    - rewrite Hpow, Hd53. apply Z.pow_le_mono_r; lia. }
  assert (Hpp : 0 < 2 ^ (- e - 1)) by (apply Z.pow_pos_nonneg; lia).
  destruct (Zpos m - 2 ^ (- e)) as [| p | p] eqn:Hdiff; try lia.
  cbn [binary_normalize].
  assert (Hp1 : 2 ^ (- e - 1) <= Zpos p < 2 ^ (- e)) by lia.
  assert (Hdp : Zpos (digits2_pos p) = - e)
    by (apply digits2_pos_eq; [lia | exact Hp1]).
  assert (Hvd := binary_round_valid prec64 emax64 ltac:(reflexivity) true p e).
  destruct (binary_round_normal prec64 emax64 ltac:(reflexivity) true p e)
    as [md [ed [Hr Hmag]]];
    try (rewrite Hdp; unfold emin, prec64, emax64; lia).
  rewrite Hr in *. exists md, ed. split; [reflexivity |].
  split; [exact Hvd |]. rewrite Hdp in Hmag.
  destruct Hmag as [Hmag | [Hmag Hpow]]; [left; lia |]. right.
  destruct (is_double_finite _ _ _ Hvd) as [Hdd [Hed Hcd]].
  assert (Hdd53 : Zpos (digits2_pos md) = 53).
  { unfold fexp, emin, prec64, emax64 in Hcd. lia. }
  rewrite Hdd53 in Hpow. change (2 ^ (53 - 1)) with 4503599627370496 in Hpow.
  split; [congruence | lia].
Qed.

(** Storing a [double] of [[-1, -1/2]] in a [float] gives a [float] of
    [[-1, -1/2]]. *)
Lemma double_to_float_range (md : positive) (ed : Z) :
  magnitude md ed = 0 \/ (md = 4503599627370496%positive /\ ed = -52) ->
  exists m e,
    double_to_float (S754_finite true md ed) = S754_finite true m e /\
    is_float (S754_finite true m e) = true /\
    ((e = -24 /\ magnitude m e = 0) \/ (m = 8388608%positive /\ e = -23)).
Proof.
  intros [Hmag | [-> ->]].
  - unfold double_to_float, round_to, magnitude in *.
    assert (Hv := binary_round_valid prec32 emax32 ltac:(reflexivity)
                    true md ed).
    destruct (binary_round_normal prec32 emax32 ltac:(reflexivity) true md ed)
      as [m [e [Hr Hm]]];
      try (rewrite Hmag; unfold emin, prec32, emax32; lia).
    rewrite Hr in *. exists m, e. split; [reflexivity |].
    split; [exact Hv |].
    destruct (is_float_finite _ _ _ Hv) as [Hd [He Hn]].
    assert (Hd24 : Zpos (digits2_pos m) = 24) by (apply Hn; lia).
    rewrite Hmag in Hm. destruct Hm as [Hm | [Hm Hpow]]; [left; lia |].
    right. rewrite Hd24 in Hpow. change (2 ^ (24 - 1)) with 8388608 in Hpow.
    split; [congruence | lia].
  - exists 8388608%positive, (-23). repeat split. right. split; reflexivity.
Qed.

(** The step is a [float] in [[-1, -1/2]] for every number of states from
    2 to [UINT32_MAX]. *)
Lemma click_step_range (n : Z) :
  2 <= n <= UINT32_MAX ->
  exists m e,
    click_step n = S754_finite true m e /\
    is_float (S754_finite true m e) = true /\
    ((e = -24 /\ magnitude m e = 0) \/ (m = 8388608%positive /\ e = -23)).
Proof.
  intros Hn. unfold click_step.
  destruct (uint32_to_float_range n Hn) as [m2 [e2 [-> [Hv2 Hmag2]]]].
  destruct (fdiv32_one_f_range m2 e2 Hv2 Hmag2)
    as [mq [eq [-> [Hvq [Hlo Hhi]]]]].
  destruct (float_to_double_finite false mq eq Hvq)
    as [mz [ez [-> [Hvz [Hez [Hmz Hmagz]]]]]].
  assert (Hhi' : magnitude mz ez <= -1 \/
                 (magnitude mz ez = 0 /\
                  Zpos mz = 2 ^ (Zpos (digits2_pos mz) - 1))).
  { destruct Hhi as [Hhi | [Hhi Hpow]]; [left; lia |]. right.
    split; [lia |]. rewrite Hmz, Hpow, <- Z.pow_add_r.
    - f_equal. unfold magnitude in *. lia.
    - assert (0 < Zpos (digits2_pos mq)) by lia. lia.
    - lia. }
  destruct (fsub64_one_d_range mz ez Hvz ltac:(lia) Hhi')
    as [md [ed [-> [Hvd Hd]]]].
  apply double_to_float_range. exact Hd.
Qed.

(* ===================================================================== *)
(** ** Conversions to integers *)
(* ===================================================================== *)

(** The integer part of a finite number of magnitude at most [B]. *)
Lemma trunc_bound (s : bool) (m : positive) (e B : Z) :
  0 <= B -> magnitude m e <= B ->
  exists j,
    trunc (S754_finite s m e) = Some (cond_Zopp s j) /\ 0 <= j < 2 ^ B.
Proof.
  unfold magnitude. intros HB Hmag. cbn [trunc].
  destruct (digits2_pos_bounds m) as [_ Hhi].
  assert (Hd : 0 < Zpos (digits2_pos m)) by lia.
  eexists. split; [reflexivity |].
  destruct e as [| p | p].
  - assert (2 ^ Zpos (digits2_pos m) <= 2 ^ B)
      by (apply Z.pow_le_mono_r; lia).
    lia.
  - rewrite Z.shiftl_mul_pow2 by lia.
    assert (2 ^ (Zpos (digits2_pos m) + Zpos p) <= 2 ^ B)
      by (apply Z.pow_le_mono_r; lia).
    rewrite Z.pow_add_r in H by lia.
    assert (0 < 2 ^ Zpos p) by (apply Z.pow_pos_nonneg; lia).
    nia.
  - rewrite Z.shiftr_div_pow2 by lia.
    assert (Hp : 0 < 2 ^ (- Zneg p)) by (apply Z.pow_pos_nonneg; lia).
    split; [apply Z.div_pos; lia |].
    apply Z.div_lt_upper_bound; [exact Hp |].
    rewrite <- Z.pow_add_r by lia.
    assert (2 ^ Zpos (digits2_pos m) <= 2 ^ (- Zneg p + B))
      by (apply Z.pow_le_mono_r; lia).
    lia.
Qed.

(** A well-formed [x] with [|x| < 1] converts to 0. *)
Lemma double_to_uint32_below_one (x : double) :
  is_double x = true -> SFltb (SFabs x) one_d = true ->
  double_to_uint32 x = Some 0.
Proof.
  intros Hv. rewrite one_d_eq. unfold SFltb.
  destruct x as [s | s | | s m e]; cbn [SFabs SFcompare].
  - reflexivity.
  - intros H; discriminate H.
  - intros H; discriminate H.
  - intros Hlt.
    destruct (is_double_finite _ _ _ Hv) as [Hd [He _]].
    assert (He52 : e < -52 \/ (e = -52 /\ Zpos m < 2 ^ 52)).
    { destruct (Z.compare_spec e (-52)) as [-> | H | H];
        [| left; exact H | discriminate Hlt].
      right. split; [reflexivity |].
      destruct (Pos.compare_cont Eq m 4503599627370496) eqn:Hc;
        try discriminate Hlt.
      exact (Pos2Z.pos_lt_pos m 4503599627370496 Hc). }
    clear Hlt.
    assert (Hm : Zpos m < 2 ^ (- e)).
    { destruct He52 as [H | [-> H]]; [| exact H].
      destruct (digits2_pos_bounds m) as [_ Hhi].
      assert (2 ^ Zpos (digits2_pos m) <= 2 ^ (- e))
        by (apply Z.pow_le_mono_r; lia).
      lia. }
    unfold double_to_uint32, to_integral, trunc.
    destruct e as [| p | p]; try lia.
    rewrite Z.shiftr_div_pow2 by lia.
    rewrite Z.div_small by lia. destruct s; reflexivity.
Qed.

Lemma d_two_32_eq : d_two_32 = Z_to_double 4294967296.
Proof. vm_compute; reflexivity. Qed.

(** A well-formed [x] with [4294967295 <= x < 4294967296] converts to
    [UINT32_MAX], and no [x >= 4294967296] converts. *)
Lemma double_to_uint32_top (x : double) :
  is_double x = true -> SFleb d_uint32_max x = true ->
  double_to_uint32 x =
  if SFltb x d_two_32 then Some UINT32_MAX else None.
Proof.
  intros Hv. rewrite d_uint32_max_eq. unfold SFleb, SFltb, d_two_32.
  destruct x as [s | s | | s m e]; cbn [SFcompare].
  - intros H; discriminate H.
  - destruct s; intros H; [discriminate H | reflexivity].
  - intros H; discriminate H.
  - destruct s; [intros H; discriminate H |]. intros Hlo.
    destruct (is_double_finite _ _ _ Hv) as [Hd [_ Hc]].
    assert (He : -21 <= e).
    { destruct (Z.compare_spec (-21) e); try lia; discriminate Hlo. }
    assert (Hd53 : Zpos (digits2_pos m) = 53).
    { unfold fexp, emin, prec64, emax64 in Hc. lia. }
    destruct (digits2_pos_bounds m) as [Hb1 Hb2]. rewrite Hd53 in Hb1, Hb2.
    change (2 ^ (53 - 1)) with 4503599627370496 in Hb1.
    change (2 ^ 53) with 9007199254740992 in Hb2.
    destruct (Z.eq_dec e (-21)) as [-> | He21].
    + (* 2^31 <= x < 2^32 *)
      rewrite Z.compare_refl in Hlo. cbn [Z.compare Pos.compare].
      assert (Hm : 9007199252643840 <= Zpos m).
      { destruct (Pos.compare_cont Eq 9007199252643840 m) eqn:Hcmp;
          try discriminate Hlo.
        - apply (Pos.compare_eq 9007199252643840 m) in Hcmp. lia.
        - apply (Pos2Z.pos_lt_pos 9007199252643840 m) in Hcmp. lia. }
      change (Z.compare (-21) (-20)) with Lt. cbv iota.
      unfold double_to_uint32, to_integral, trunc, cond_Zopp.
      rewrite Z.shiftr_div_pow2 by lia. change (2 ^ (- -21)) with 2097152.
      assert (Hq : Zpos m / 2097152 = UINT32_MAX).
      { unfold UINT32_MAX. symmetry.
        apply (Z.div_unique _ _ _ (Zpos m - 4294967295 * 2097152)); lia. }
      rewrite Hq. reflexivity.
    + (* 2^32 <= x *)
      assert (He20 : -20 <= e) by lia.
      assert (Hcmp : match
                       match Z.compare e (-20) with
                       | Eq => Pos.compare_cont Eq m 4503599627370496
                       | Lt => Lt
                       | Gt => Gt
                       end
                     with
                     | Lt => true
                     | _ => false
                     end = false).
      { destruct (Z.compare_spec e (-20)) as [-> | H | H];
          [| lia | reflexivity].
        destruct (Pos.compare_cont Eq m 4503599627370496) eqn:Hcmp;
          try reflexivity.
        apply (Pos2Z.pos_lt_pos m 4503599627370496) in Hcmp. lia. }
      rewrite Hcmp.
      unfold double_to_uint32, to_integral, trunc, cond_Zopp.
      assert (Hbig : UINT32_MAX <
                     match e with
                     | 0 => Zpos m
                     | Zpos _ => Z.shiftl (Zpos m) e
                     | Zneg _ => Z.shiftr (Zpos m) (- e)
                     end).
      { unfold UINT32_MAX. destruct e as [| p | p].
        - lia.
        - rewrite Z.shiftl_mul_pow2 by lia.
          assert (0 < 2 ^ Zpos p) by (apply Z.pow_pos_nonneg; lia). nia.
        - rewrite Z.shiftr_div_pow2 by lia.
          assert (2 ^ (- Zneg p) <= 2 ^ 20)
            by (apply Z.pow_le_mono_r; lia).
          assert (0 < 2 ^ (- Zneg p)) by (apply Z.pow_pos_nonneg; lia).
          change (2 ^ 20) with 1048576 in H.
          apply Z.lt_le_trans with (4294967296); [lia |].
          apply Z.div_le_lower_bound; [lia |]. nia. }
      replace (_ <=? UINT32_MAX) with false
        by (symmetry; apply Z.leb_gt; exact Hbig).
      rewrite andb_false_r. reflexivity.
Qed.

(* ===================================================================== *)
(** ** More on the construction of buttons *)
(* ===================================================================== *)

Section ButtonConstructionEdges.
Context {tk : Toolkit}.
Import IButtonControlBase.

(** X1: a button bound to a parameter whose range is the whole number [k],
    with [1 <= k <= 4294967294], is constructed with exactly [k + 1]
    states. *)
Theorem button_new_whole_range plug rect paramIdx actionFunc numStates
  param (k : Z) :
  paramIdx > -1 ->
  GetParam plug paramIdx = Some param ->
  GetRange param = Z_to_double k ->
  1 <= k <= UINT32_MAX - 1 ->
  new plug rect paramIdx actionFunc numStates =
  Done {| base := IControl.new plug rect paramIdx actionFunc;
          mNumStates := k + 1 |}.
Proof.
  intros Hidx Hp Hr Hk.
  rewrite (new_bound _ _ _ _ _ param k); try assumption.
  - rewrite uint32_add_1_small by lia.
    replace (k + 1 >? 1) with true by (symmetry; apply Z.gtb_lt; lia).
    reflexivity.
  - apply Z.gtb_lt. lia.
  - rewrite Hr. apply double_to_uint32_Z_to_double. lia.
Qed.

(** X2: for a bound parameter whose range converts to the [uint32_t] [r],
    the constructor completes with [r + 1] states when
    [1 <= r <= 4294967294], and stops at the assertion when [r] is 0 or
    4294967295 (the sum wraps to 0). *)
Theorem button_new_bound_outcome plug rect paramIdx actionFunc numStates
  param (r : Z) :
  paramIdx > -1 ->
  GetParam plug paramIdx = Some param ->
  double_to_uint32 (GetRange param) = Some r ->
  new plug rect paramIdx actionFunc numStates =
  if (1 <=? r) && (r <? UINT32_MAX) then
    Done {| base := IControl.new plug rect paramIdx actionFunc;
            mNumStates := r + 1 |}
  else AssertionFailed.
Proof.
  intros Hidx Hp Hr.
  rewrite (new_bound _ _ _ _ _ param r); try assumption;
    [| apply Z.gtb_lt; lia].
  destruct (to_integral_Some _ _ _ _ Hr) as [_ [Hr0 Hr1]].
  destruct (1 <=? r) eqn:H1; destruct (r <? UINT32_MAX) eqn:H2;
    cbn [andb].
  - apply Z.leb_le in H1. apply Z.ltb_lt in H2.
    rewrite uint32_add_1_small by lia.
    replace (r + 1 >? 1) with true by (symmetry; apply Z.gtb_lt; lia).
    reflexivity.
  - apply Z.ltb_ge in H2. assert (r = UINT32_MAX) by lia. subst r.
    reflexivity.
  - apply Z.leb_gt in H1. assert (r = 0) by lia. subst r. reflexivity.
  - apply Z.leb_gt in H1. apply Z.ltb_ge in H2. unfold UINT32_MAX in *. lia.
Qed.

(** X3: every negative [paramIdx], not only [kNoParameter], makes the
    button unbound: the constructor takes [numStates] and stops at the
    assertion exactly when [numStates] is 0 or 1. *)
Theorem button_new_unbound_outcome plug rect paramIdx actionFunc numStates :
  paramIdx < 0 -> 0 <= numStates ->
  new plug rect paramIdx actionFunc numStates =
  if numStates <=? 1 then AssertionFailed
  else Done {| base := IControl.new plug rect paramIdx actionFunc;
               mNumStates := numStates |}.
Proof.
  intros Hidx Hn.
  rewrite new_unbound by (rewrite Z.gtb_ltb; apply Z.ltb_ge; lia).
  destruct (numStates <=? 1) eqn:H1.
  - apply Z.leb_le in H1.
    replace (numStates >? 1) with false
      by (symmetry; rewrite Z.gtb_ltb; apply Z.ltb_ge; lia).
    reflexivity.
  - apply Z.leb_gt in H1.
    replace (numStates >? 1) with true by (symmetry; apply Z.gtb_lt; lia).
    reflexivity.
Qed.

(** X4: a button cannot be bound to a parameter whose range is below 1 in
    absolute value (for instance a parameter with equal bounds): the state
    count would be 1 and the constructor stops at the assertion. *)
Theorem button_new_range_below_one plug rect paramIdx actionFunc numStates
  param :
  paramIdx > -1 ->
  GetParam plug paramIdx = Some param ->
  is_double (GetRange param) = true ->
  SFltb (SFabs (GetRange param)) one_d = true ->
  new plug rect paramIdx actionFunc numStates = AssertionFailed.
Proof.
  intros Hidx Hp Hv Hlt.
  rewrite (new_bound _ _ _ _ _ param 0); try assumption.
  - reflexivity.
  - apply Z.gtb_lt. lia.
  - apply double_to_uint32_below_one; assumption.
Qed.

(** X5: for a bound parameter whose range is at least 4294967295, the
    constructor never completes: the sum wraps to 0 and the assertion
    fails when the range is below 4294967296, and from 4294967296 on
    (infinity included) the conversion to [uint32_t] has no defined
    behaviour. *)
Theorem button_new_range_too_large plug rect paramIdx actionFunc numStates
  param :
  paramIdx > -1 ->
  GetParam plug paramIdx = Some param ->
  is_double (GetRange param) = true ->
  SFleb d_uint32_max (GetRange param) = true ->
  new plug rect paramIdx actionFunc numStates =
  if SFltb (GetRange param) d_two_32 then AssertionFailed else Undefined.
Proof.
  intros Hidx Hp Hv Hge.
  assert (Hgt : (paramIdx >? -1) = true) by (apply Z.gtb_lt; lia).
  pose proof (double_to_uint32_top _ Hv Hge) as Hc.
  destruct (SFltb (GetRange param) d_two_32).
  - rewrite (new_bound _ _ _ _ _ param UINT32_MAX); try assumption.
    reflexivity.
  - unfold new. rewrite Hgt, Hp. cbn [of_option obind]. rewrite Hc.
    reflexivity.
Qed.

(** The state count of a constructed button is a [uint32_t] above 1. *)
Lemma new_mNumStates_range plug rect paramIdx actionFunc numStates c :
  new plug rect paramIdx actionFunc numStates = Done c ->
  numStates <= UINT32_MAX ->
  2 <= mNumStates c <= UINT32_MAX.
Proof.
  intros Hnew Hmax. unfold new in Hnew.
  destruct (paramIdx >? -1).
  - destruct (GetParam plug paramIdx) as [param |]; [| discriminate Hnew].
    cbn [of_option obind] in Hnew.
    destruct (double_to_uint32 (GetRange param)) as [r |] eqn:Hr;
      [| discriminate Hnew].
    cbn [of_option obind] in Hnew.
    destruct (uint32_add r 1 >? 1) eqn:Ha; [| discriminate Hnew].
    cbn [assert obind] in Hnew. injection Hnew as <-. cbn [mNumStates].
    apply Z.gtb_lt in Ha. unfold uint32_add in *.
    pose proof (Z.mod_pos_bound (r + 1) (2 ^ 32) ltac:(lia)) as Hb.
    unfold UINT32_MAX. change (2 ^ 32) with 4294967296 in *. lia.
  - cbn [obind] in Hnew.
    destruct (numStates >? 1) eqn:Ha; [| discriminate Hnew].
    cbn [assert obind] in Hnew. injection Hnew as <-. cbn [mNumStates].
    apply Z.gtb_lt in Ha. lia.
Qed.

End ButtonConstructionEdges.

(* ===================================================================== *)
(** ** The value after [OnMouseDown] *)
(* ===================================================================== *)

Lemma fmod_one_d_valid (y : double) : is_double (fmod one_d y) = true.
Proof.
  rewrite one_d_eq.
  destruct y as [sy | sy | | sy my ey]; try reflexivity.
  unfold fmod. apply binary_normalize_valid. reflexivity.
Qed.

(** [x + (-x)] is [+0.0]. *)
Lemma fadd64_opp (s : bool) (m : positive) (e : Z) :
  fadd64 (S754_finite (negb s) m e) (S754_finite s m e) = S754_zero false.
Proof.
  unfold fadd64, SFadd. rewrite Z.min_id.
  unfold shl_align. rewrite Z.sub_diag. cbn [fst].
  replace (cond_Zopp (negb s) (Zpos m) + cond_Zopp s (Zpos m)) with 0
    by (destruct s; cbn [cond_Zopp negb]; lia).
  reflexivity.
Qed.

(** The step as a [double]: a negative number between -1 and -1/2. *)
Lemma click_step_double (n : Z) :
  2 <= n <= UINT32_MAX ->
  exists m e,
    float_to_double (click_step n) = S754_finite true m e /\
    is_double (S754_finite true m e) = true /\
    (e = -53 \/ (m = 4503599627370496%positive /\ e = -52)).
Proof.
  intros Hn.
  destruct (click_step_range n Hn) as [m [e [-> [Hv Hc]]]].
  destruct Hc as [[-> Hmag] | [-> ->]].
  - destruct (float_to_double_finite true m (-24) Hv)
      as [mz [ez [-> [Hvz [_ [_ Hmz]]]]]].
    exists mz, ez. split; [reflexivity |]. split; [exact Hvz |]. left.
    destruct (is_double_finite _ _ _ Hvz) as [Hd [He Hcz]].
    unfold magnitude in *. unfold fexp, emin, prec64, emax64 in Hcz. lia.
  - exists 4503599627370496%positive, (-52).
    split; [reflexivity |]. split; [reflexivity |]. right.
    split; reflexivity.
Qed.

Section ButtonValue.
Context {tk : Toolkit}.
Import IButtonControlBase.

(** The value after [OnMouseDown], with the step named. *)
Lemma OnMouseDown_value x y mod_ (c : t) (g : IGraphics) :
  exists c' g',
    OnMouseDown x y mod_ (c, g) = Done (tt, (c', g')) /\
    mNumStates c' = mNumStates c /\
    IControl.mValue (base c') =
      if mNumStates c =? 2 then
        bool_to_double (negb (double_to_bool (IControl.mValue (base c))))
      else
        fmod one_d
          (fadd64 (IControl.mValue (base c))
             (float_to_double (click_step (mNumStates c)))).
Proof.
  eexists _, _. split; [apply OnMouseDown_run |].
  split; reflexivity.
Qed.

(** X6: whatever the state count, when [mValue] is a well-formed [double]
    the value left by [OnMouseDown] is a well-formed [double] again, and it
    is either NaN or a number in [[0, 1]]. *)
Theorem OnMouseDown_value_range x y mod_ (c : t) (g : IGraphics) :
  is_double (IControl.mValue (base c)) = true ->
  exists c' g',
    OnMouseDown x y mod_ (c, g) = Done (tt, (c', g')) /\
    is_double (IControl.mValue (base c')) = true /\
    (IControl.mValue (base c') = S754_nan \/
     in_unit_interval (IControl.mValue (base c')) = true).
Proof.
  intros Hv.
  destruct (OnMouseDown_value x y mod_ c g) as [c' [g' [Hrun [_ Hval]]]].
  exists c', g'. split; [exact Hrun |]. rewrite Hval.
  destruct (mNumStates c =? 2).
  - destruct (double_to_bool (IControl.mValue (base c)));
      (split; [reflexivity | right; reflexivity]).
  - split; [apply fmod_one_d_valid |].
    set (sum := fadd64 (IControl.mValue (base c))
                  (float_to_double (click_step (mNumStates c)))).
    assert (Hs : is_double sum = true)
      by (apply fadd64_valid; [exact Hv | apply float_to_double_valid]).
    pose proof (fmod_one_d sum Hs) as Hf.
    destruct sum; auto.
Qed.

(** X7: for every state count above 2 the value [- step], which is about
    [1 - 1/mNumStates] and lies in [[0, 1]], is sent to NaN by
    [OnMouseDown]: the sum [mValue + step] is zero and [fmod(1., 0)] is
    NaN. *)
Theorem OnMouseDown_nan_at_minus_step x y mod_ (c : t) (g : IGraphics) :
  2 < mNumStates c <= UINT32_MAX ->
  IControl.mValue (base c) =
    SFopp (float_to_double (click_step (mNumStates c))) ->
  in_unit_interval (IControl.mValue (base c)) = true /\
  exists c' g',
    OnMouseDown x y mod_ (c, g) = Done (tt, (c', g')) /\
    IControl.mValue (base c') = S754_nan.
Proof.
  intros HN Hval.
  destruct (click_step_double (mNumStates c)) as [m [e [Hs [Hv He]]]];
    [lia |].
  rewrite Hs in Hval. cbn [SFopp negb] in Hval.
  split.
  - rewrite Hval. apply in_unit_interval_finite.
    destruct He as [-> | [-> ->]]; [left; lia | right].
    split; [reflexivity |]. change (2 ^ 52) with 4503599627370496. lia.
  - destruct (OnMouseDown_value x y mod_ c g) as [c' [g' [Hrun [_ Hv']]]].
    exists c', g'. split; [exact Hrun |]. rewrite Hv'.
    replace (mNumStates c =? 2) with false
      by (symmetry; apply Z.eqb_neq; lia).
    rewrite Hval, Hs.
    pose proof (fadd64_opp true m e) as Ho. cbn [negb] in Ho.
    rewrite Ho. reflexivity.
Qed.

End ButtonValue.

(* ===================================================================== *)
(** ** The state index of [Draw] *)
(* ===================================================================== *)

Lemma in_unit_interval_inv (x : double) :
  in_unit_interval x = true ->
  (exists s, x = S754_zero s) \/
  (exists m e, x = S754_finite false m e /\ e <= -52).
Proof.
  unfold in_unit_interval. rewrite one_d_eq. unfold zero_d, SFleb.
  destruct x as [s | s | | s m e]; cbn [SFcompare].
  - intros _. left. exists s. reflexivity.
  - destruct s; intros H; discriminate H.
  - intros H; discriminate H.
  - destruct s; [intros H; discriminate H |]. cbn [andb]. intros H.
    right. exists m, e. split; [reflexivity |].
    destruct (Z.compare_spec e (-52)); try lia; discriminate H.
Qed.

(** For a value in [[0, 1]] and the step of [n] states, the quotient
    [mValue / mStep] converts to an [int], which is never positive. *)
Lemma quotient_index (v : double) (n : Z) :
  2 <= n <= UINT32_MAX ->
  is_double v = true -> in_unit_interval v = true ->
  exists k,
    double_to_int (fdiv64 v (float_to_double (click_step n))) = Some k /\
    k <= 0.
Proof.
  intros Hn Hv Hu.
  destruct (click_step_double n Hn) as [my [ey [-> [Hvy Hey]]]].
  destruct (is_double_finite _ _ _ Hvy) as [Hdy [_ Hcy]].
  assert (Hmagy : 0 <= Zpos (digits2_pos my) + ey).
  { unfold fexp, emin, prec64, emax64 in Hcy.
    destruct Hey as [-> | [-> ->]]; [lia | cbn; lia]. }
  destruct (in_unit_interval_inv v Hu) as [[s ->] | [mx [ex [-> Hex]]]].
  - exists 0. split; [reflexivity | lia].
  - destruct (is_double_finite _ _ _ Hv) as [Hdx _].
    destruct (SFdiv_finite_magnitude prec64 emax64 ltac:(reflexivity)
                false mx ex true my ey) as [Hz | [m3 [e3 [Hq Hmag]]]].
    + unfold emax64. lia.
    + unfold emin, prec64, emax64. lia.
    + unfold fdiv64. rewrite Hz. exists 0. split; [reflexivity | lia].
    + unfold fdiv64. rewrite Hq. cbn [xorb].
      destruct (trunc_bound true m3 e3 3) as [j [Ht Hj]]; [lia | |].
      { unfold magnitude, emin, prec64, emax64 in *. lia. }
      exists (- j). split; [| lia].
      unfold double_to_int, to_integral. rewrite Ht. cbn [cond_Zopp].
      change (2 ^ 3) with 8 in Hj.
      replace (INT_MIN <=? - j) with true
        by (symmetry; apply Z.leb_le; unfold INT_MIN; lia).
      replace (- j <=? INT_MAX) with true
        by (symmetry; apply Z.leb_le; unfold INT_MAX; lia).
      reflexivity.
Qed.

Section SwitchDraw.
Context {tk : Toolkit}.
Import IVSwitchControl.

(** A constructed switch holds the step of its state count. *)
Lemma new_mStep plug rect paramIdx actionFunc fgColor bgColor numStates dir
  (sw : t) :
  new plug rect paramIdx actionFunc fgColor bgColor numStates dir = Done sw ->
  numStates <= UINT32_MAX ->
  mStep sw = click_step (IButtonControlBase.mNumStates (base sw)) /\
  2 <= IButtonControlBase.mNumStates (base sw) <= UINT32_MAX.
Proof.
  intros Hnew Hmax. unfold new in Hnew.
  destruct (IButtonControlBase.new plug rect paramIdx actionFunc numStates)
    as [b | |] eqn:Hb; [| discriminate Hnew ..].
  cbn [obind] in Hnew. injection Hnew as <-. cbn [base mStep].
  split; [reflexivity |].
  exact (new_mNumStates_range _ _ _ _ _ _ Hb Hmax).
Qed.

(** X8: the [mStep] of every constructed switch is a [float] between -1
    and -1/2, whatever the state count: the expression
    [1.f/float(mNumStates) - 1.] is [1/N - 1]. *)
Theorem switch_new_mStep_range
  plug rect paramIdx actionFunc fgColor bgColor numStates dir (sw : t) :
  new plug rect paramIdx actionFunc fgColor bgColor numStates dir = Done sw ->
  numStates <= UINT32_MAX ->
  is_float (mStep sw) = true /\
  SFleb f_minus_1 (mStep sw) = true /\
  SFleb (mStep sw) f_minus_0_5 = true.
Proof.
  intros Hnew Hmax.
  destruct (new_mStep _ _ _ _ _ _ _ _ _ Hnew Hmax) as [-> HN].
  destruct (click_step_range _ HN) as [m [e [-> [Hv Hc]]]].
  split; [exact Hv |].
  destruct Hc as [[-> Hmag] | [-> ->]]; [| split; reflexivity].
  unfold magnitude in Hmag.
  destruct (digits2_pos_bounds m) as [Hlo _].
  replace (Zpos (digits2_pos m) - 1) with 23 in Hlo by lia.
  change (2 ^ 23) with 8388608 in Hlo.
  unfold f_minus_1, f_minus_0_5, SFleb. cbn [SFcompare].
  change (Z.compare (-23) (-24)) with Gt. rewrite Z.compare_refl.
  split; [reflexivity |].
  destruct (Pos.compare_cont Eq m 8388608) eqn:Hcmp; try reflexivity.
  apply (Pos2Z.pos_lt_pos m 8388608) in Hcmp. lia.
Qed.

(** X9: for every constructed switch and every value in [[0, 1]], [Draw]
    completes: the state index [mValue / mStep] converts to an [int], the
    two [FillRect] calls are issued, and the index is never positive, so
    none of the cells 1 to [mNumStates - 1] is ever selected. *)
Theorem switch_Draw_completes
  plug rect paramIdx actionFunc fgColor bgColor numStates dir
  (sw0 : t) (v : double) (g : IGraphics) :
  new plug rect paramIdx actionFunc fgColor bgColor numStates dir = Done sw0 ->
  numStates <= UINT32_MAX ->
  is_double v = true -> in_unit_interval v = true ->
  exists k g',
    k <= 0 /\
    Draw_state (set_mValue v sw0) = Some k /\
    Draw (set_mValue v sw0, g) = Done (tt, (set_mValue v sw0, g')) /\
    List.length (calls g') = (List.length (calls g) + 2)%nat.
Proof.
  intros Hnew Hmax Hv Hu.
  destruct (new_mStep _ _ _ _ _ _ _ _ _ Hnew Hmax) as [Hstep HN].
  destruct (quotient_index v _ HN Hv Hu) as [k [Hk Hk0]].
  assert (Hs : Draw_state (set_mValue v sw0) = Some k).
  { unfold Draw_state. cbn. rewrite Hstep. exact Hk. }
  exists k. eexists. split; [exact Hk0 |]. split; [exact Hs |].
  rewrite Draw_run, Hs. split; [reflexivity |].
  cbn [calls]. rewrite length_app. reflexivity.
Qed.

(** X10: a click followed by [Draw], on every constructed switch with a
    well-formed value: either the click left NaN in [mValue] and [Draw] has
    no defined behaviour, or [Draw] completes with a state index that is
    not positive. *)
Theorem switch_click_then_Draw
  plug rect paramIdx actionFunc fgColor bgColor numStates dir
  (sw0 : t) (v : double) x y mod_ (g : IGraphics) :
  new plug rect paramIdx actionFunc fgColor bgColor numStates dir = Done sw0 ->
  numStates <= UINT32_MAX ->
  is_double v = true ->
  exists sw1 g1,
    OnMouseDown x y mod_ (set_mValue v sw0, g) = Done (tt, (sw1, g1)) /\
    ((IControl.mValue (control sw1) = S754_nan /\
      Draw (sw1, g1) = Undefined) \/
     (exists k g2,
        k <= 0 /\ Draw_state sw1 = Some k /\
        Draw (sw1, g1) = Done (tt, (sw1, g2)))).
Proof.
  intros Hnew Hmax Hv.
  destruct (new_mStep _ _ _ _ _ _ _ _ _ Hnew Hmax) as [Hstep HN].
  destruct (OnMouseDown_value_range x y mod_ (base (set_mValue v sw0)) g)
    as [b [g1 [Hrun [Hvb Hnan]]]]; [exact Hv |].
  exists (upd_base (fun _ => b) (set_mValue v sw0)), g1. split.
  - unfold OnMouseDown. cbn [fst snd]. rewrite Hrun. reflexivity.
  - rewrite Draw_run. unfold Draw_state. cbn [control upd_base base mStep].
    cbn [set_mValue upd_base mStep].
    change (IControl.mValue
              (control (upd_base (fun _ => b) (set_mValue v sw0))))
      with (IControl.mValue (IButtonControlBase.base b)).
    destruct Hnan as [Hnan | Hu].
    + left. rewrite Hnan. split; reflexivity.
    + right.
      destruct (quotient_index _ _ HN Hvb Hu) as [k [Hk Hk0]].
      rewrite Hstep, Hk. exists k. eexists.
      split; [exact Hk0 |]. split; reflexivity.
Qed.

(** X11: on every constructed switch with two states, a click followed by
    [Draw] gives the state index 0 when the value was not zero (the value
    becomes 0), and the state index -2 when the value was zero (the value
    becomes 1). *)
Theorem two_state_switch_click_then_Draw
  plug rect paramIdx actionFunc fgColor bgColor numStates dir
  (sw0 : t) (v : double) x y mod_ (g : IGraphics) :
  new plug rect paramIdx actionFunc fgColor bgColor numStates dir = Done sw0 ->
  IButtonControlBase.mNumStates (base sw0) = 2 ->
  exists sw1 g1,
    OnMouseDown x y mod_ (set_mValue v sw0, g) = Done (tt, (sw1, g1)) /\
    Draw_state sw1 = Some (if SFeqb v zero_d then -2 else 0).
Proof.
  intros Hnew HN.
  assert (Hstep : mStep sw0 = f_minus_0_5).
  { unfold new in Hnew.
    destruct (IButtonControlBase.new plug rect paramIdx actionFunc numStates)
      as [b | |]; [| discriminate Hnew ..].
    cbn [obind] in Hnew. injection Hnew as <-. cbn [base mStep] in *.
    rewrite HN. vm_compute. reflexivity. }
  eexists _, _. split.
  - unfold OnMouseDown. cbn [fst snd]. rewrite OnMouseDown_run. reflexivity.
  - unfold Draw_state. cbn. rewrite HN, Hstep. cbn [Z.eqb Pos.eqb].
    rewrite SFeqb_zero_d.
    destruct (double_to_bool v); vm_compute; reflexivity.
Qed.

(** X12: NaN is absorbing: on a switch whose value is NaN, [Draw] has no
    defined behaviour, and a click leaves NaN in place when the switch has
    more than two states; only the two-state toggle leaves NaN (for 0). *)
Theorem switch_nan_is_absorbing (sw : t) x y mod_ (g : IGraphics) :
  IControl.mValue (control sw) = S754_nan ->
  Draw (sw, g) = Undefined /\
  exists sw1 g1,
    OnMouseDown x y mod_ (sw, g) = Done (tt, (sw1, g1)) /\
    IControl.mValue (control sw1) =
      if IButtonControlBase.mNumStates (base sw) =? 2 then zero_d
      else S754_nan.
Proof.
  intros Hnan. split.
  - rewrite Draw_run. unfold Draw_state. rewrite Hnan. reflexivity.
  - eexists _, _. split.
    + unfold OnMouseDown. cbn [fst snd]. rewrite OnMouseDown_run.
      reflexivity.
    + cbn. unfold control in Hnan. rewrite Hnan.
      destruct (IButtonControlBase.mNumStates (base sw) =? 2); reflexivity.
Qed.

End SwitchDraw.

Section TextBlend.
Context {tk : Toolkit}.
Import IBTextControl.

(** X13: the blend argument [bl] of the [IBTextControl] constructor has no
    effect: two constructions that differ only in it give the same
    control, and [Draw] passes the control's own blend member. *)
Theorem text_new_ignores_blend
  plug rect textBitmap text str charWidth charHeight charOffset
  multiLine vCenter (bl1 bl2 : EBlendType) (g : IGraphics) :
  new plug rect textBitmap text str charWidth charHeight charOffset
    multiLine vCenter bl1 =
  new plug rect textBitmap text str charWidth charHeight charOffset
    multiLine vCenter bl2 /\
  Draw (new plug rect textBitmap text str charWidth charHeight charOffset
          multiLine vCenter bl1, g) =
  Draw (new plug rect textBitmap text str charWidth charHeight charOffset
          multiLine vCenter bl2, g).
Proof. split; reflexivity. Qed.

End TextBlend.

(* ===================================================================== *)
(** ** Witnesses of the further properties *)
(* ===================================================================== *)

(** X1, witness: a parameter of range 3. *)
Lemma button_new_whole_range_witness :
  0 > -1 /\
  GetParam (one_param_plug (Z_to_double 3)) 0 =
    Some {| GetRange := Z_to_double 3 |} /\
  1 <= 3 <= UINT32_MAX - 1 /\
  IButtonControlBase.new (tk := term_toolkit)
    (one_param_plug (Z_to_double 3)) sample_rect 0 None 2 =
  Done {| IButtonControlBase.base :=
            IControl.new (tk := term_toolkit)
              (one_param_plug (Z_to_double 3)) sample_rect 0 None;
          IButtonControlBase.mNumStates := 3 + 1 |}.
Proof.
  split; [lia |]. split; [reflexivity |].
  split; [unfold UINT32_MAX; lia |].
  apply (button_new_whole_range (tk := term_toolkit)
           (one_param_plug (Z_to_double 3)) sample_rect 0 None 2
           {| GetRange := Z_to_double 3 |} 3);
    [lia | reflexivity | reflexivity | unfold UINT32_MAX; lia].
Defined.

(** X2, witness: a parameter of range 2.5, which converts to 2. *)
Lemma button_new_bound_outcome_witness :
  0 > -1 /\
  GetParam (one_param_plug d_2_5) 0 = Some {| GetRange := d_2_5 |} /\
  double_to_uint32 d_2_5 = Some 2 /\
  IButtonControlBase.new (tk := term_toolkit)
    (one_param_plug d_2_5) sample_rect 0 None 2 =
  (if (1 <=? 2) && (2 <? UINT32_MAX) then
     Done {| IButtonControlBase.base :=
               IControl.new (tk := term_toolkit)
                 (one_param_plug d_2_5) sample_rect 0 None;
             IButtonControlBase.mNumStates := 2 + 1 |}
   else AssertionFailed).
Proof.
  split; [lia |]. split; [reflexivity |]. split; [reflexivity |].
  apply (button_new_bound_outcome (tk := term_toolkit)
           (one_param_plug d_2_5) sample_rect 0 None 2
           {| GetRange := d_2_5 |} 2);
    [lia | reflexivity | reflexivity].
Defined.

(** X3, witness: the index -2 and one state. *)
Lemma button_new_unbound_outcome_witness :
  -2 < 0 /\ 0 <= 1 /\
  IButtonControlBase.new (tk := term_toolkit)
    (one_param_plug one_d) sample_rect (-2) None 1 =
  (if 1 <=? 1 then AssertionFailed
   else Done {| IButtonControlBase.base :=
                  IControl.new (tk := term_toolkit)
                    (one_param_plug one_d) sample_rect (-2) None;
                IButtonControlBase.mNumStates := 1 |}).
Proof.
  split; [lia |]. split; [lia |].
  apply (button_new_unbound_outcome (tk := term_toolkit)
           (one_param_plug one_d) sample_rect (-2) None 1); lia.
Defined.

(** X4, witness: a parameter of range 0.75. *)
Lemma button_new_range_below_one_witness :
  0 > -1 /\
  GetParam (one_param_plug d_0_75) 0 = Some {| GetRange := d_0_75 |} /\
  is_double d_0_75 = true /\
  SFltb (SFabs d_0_75) one_d = true /\
  IButtonControlBase.new (tk := term_toolkit)
    (one_param_plug d_0_75) sample_rect 0 None 2 = AssertionFailed.
Proof.
  split; [lia |]. split; [reflexivity |]. split; [reflexivity |].
  split; [reflexivity |].
  apply (button_new_range_below_one (tk := term_toolkit)
           (one_param_plug d_0_75) sample_rect 0 None 2
           {| GetRange := d_0_75 |});
    [lia | reflexivity | reflexivity | reflexivity].
Defined.

(** X5, witness: a parameter of range 4294967296. *)
Lemma button_new_range_too_large_witness :
  0 > -1 /\
  GetParam (one_param_plug d_two_32) 0 = Some {| GetRange := d_two_32 |} /\
  is_double d_two_32 = true /\
  SFleb d_uint32_max d_two_32 = true /\
  IButtonControlBase.new (tk := term_toolkit)
    (one_param_plug d_two_32) sample_rect 0 None 2 =
  (if SFltb d_two_32 d_two_32 then AssertionFailed else Undefined).
Proof.
  split; [lia |]. split; [reflexivity |]. split; [reflexivity |].
  split; [reflexivity |].
  apply (button_new_range_too_large (tk := term_toolkit)
           (one_param_plug d_two_32) sample_rect 0 None 2
           {| GetRange := d_two_32 |});
    [lia | reflexivity | reflexivity | reflexivity].
Defined.

(** X6, witness: four states and the value 0.75. *)
Lemma OnMouseDown_value_range_witness :
  is_double
    (IControl.mValue (IButtonControlBase.base (sample_button 4 d_0_75)))
  = true /\
  exists c' g',
    IButtonControlBase.OnMouseDown one_f one_f no_mod
      (sample_button 4 d_0_75, no_calls) = Done (tt, (c', g')) /\
    is_double (IControl.mValue (IButtonControlBase.base c')) = true /\
    (IControl.mValue (IButtonControlBase.base c') = S754_nan \/
     in_unit_interval (IControl.mValue (IButtonControlBase.base c')) = true).
Proof.
  split; [reflexivity |].
  apply (OnMouseDown_value_range (tk := term_toolkit)
           one_f one_f no_mod (sample_button 4 d_0_75) no_calls).
  reflexivity.
Defined.

(** X7, witness: four states; minus the step is 0.75. *)
Lemma OnMouseDown_nan_at_minus_step_witness :
  2 < IButtonControlBase.mNumStates (sample_button 4 d_0_75) <= UINT32_MAX /\
  IControl.mValue (IButtonControlBase.base (sample_button 4 d_0_75)) =
    SFopp (float_to_double
             (click_step
                (IButtonControlBase.mNumStates (sample_button 4 d_0_75)))) /\
  in_unit_interval
    (IControl.mValue (IButtonControlBase.base (sample_button 4 d_0_75)))
  = true /\
  exists c' g',
    IButtonControlBase.OnMouseDown one_f one_f no_mod
      (sample_button 4 d_0_75, no_calls) = Done (tt, (c', g')) /\
    IControl.mValue (IButtonControlBase.base c') = S754_nan.
Proof.
  split; [cbn; unfold UINT32_MAX; lia |]. split; [reflexivity |].
  apply (OnMouseDown_nan_at_minus_step (tk := term_toolkit)
           one_f one_f no_mod (sample_button 4 d_0_75) no_calls);
    [cbn; unfold UINT32_MAX; lia | reflexivity].
Defined.

(** X8, witness: the sample switch with four states. *)
Lemma switch_new_mStep_range_witness :
  IVSwitchControl.new (tk := term_toolkit)
    (one_param_plug one_d) sample_rect kNoParameter None 0 16777215 4 kVertical =
  Done (sample_switch 4 f_minus_0_75 zero_d) /\
  4 <= UINT32_MAX /\
  is_float (IVSwitchControl.mStep (sample_switch 4 f_minus_0_75 zero_d))
  = true /\
  SFleb f_minus_1 (IVSwitchControl.mStep (sample_switch 4 f_minus_0_75 zero_d))
  = true /\
  SFleb (IVSwitchControl.mStep (sample_switch 4 f_minus_0_75 zero_d))
    f_minus_0_5 = true.
Proof.
  split; [reflexivity |]. split; [unfold UINT32_MAX; lia |].
  apply (switch_new_mStep_range (tk := term_toolkit)
           (one_param_plug one_d) sample_rect kNoParameter None
           (0 : @IColor term_toolkit) (16777215 : @IColor term_toolkit)
           4 kVertical (sample_switch 4 f_minus_0_75 zero_d));
    [reflexivity | unfold UINT32_MAX; lia].
Defined.

(** X9, witness: the sample switch with four states at the value 0.25. *)
Lemma switch_Draw_completes_witness :
  IVSwitchControl.new (tk := term_toolkit)
    (one_param_plug one_d) sample_rect kNoParameter None 0 16777215 4 kVertical =
  Done (sample_switch 4 f_minus_0_75 zero_d) /\
  4 <= UINT32_MAX /\
  is_double d_0_25 = true /\ in_unit_interval d_0_25 = true /\
  exists k g',
    k <= 0 /\
    IVSwitchControl.Draw_state
      (IVSwitchControl.set_mValue d_0_25
         (sample_switch 4 f_minus_0_75 zero_d)) = Some k /\
    IVSwitchControl.Draw
      (IVSwitchControl.set_mValue d_0_25
         (sample_switch 4 f_minus_0_75 zero_d), no_calls) =
    Done (tt, (IVSwitchControl.set_mValue d_0_25
                 (sample_switch 4 f_minus_0_75 zero_d), g')) /\
    List.length (calls g') = (List.length (calls no_calls) + 2)%nat.
Proof.
  split; [reflexivity |]. split; [unfold UINT32_MAX; lia |].
  split; [reflexivity |]. split; [reflexivity |].
  apply (switch_Draw_completes (tk := term_toolkit)
           (one_param_plug one_d) sample_rect kNoParameter None
           (0 : @IColor term_toolkit) (16777215 : @IColor term_toolkit)
           4 kVertical (sample_switch 4 f_minus_0_75 zero_d) d_0_25 no_calls);
    [reflexivity | unfold UINT32_MAX; lia | reflexivity | reflexivity].
Defined.

(** X10, witness: the sample switch with four states, clicked at 0.75. *)
Lemma switch_click_then_Draw_witness :
  IVSwitchControl.new (tk := term_toolkit)
    (one_param_plug one_d) sample_rect kNoParameter None 0 16777215 4 kVertical =
  Done (sample_switch 4 f_minus_0_75 zero_d) /\
  4 <= UINT32_MAX /\
  is_double d_0_75 = true /\
  exists sw1 g1,
    IVSwitchControl.OnMouseDown one_f one_f no_mod
      (IVSwitchControl.set_mValue d_0_75
         (sample_switch 4 f_minus_0_75 zero_d), no_calls) =
    Done (tt, (sw1, g1)) /\
    ((IControl.mValue (IVSwitchControl.control sw1) = S754_nan /\
      IVSwitchControl.Draw (sw1, g1) = Undefined) \/
     (exists k g2,
        k <= 0 /\ IVSwitchControl.Draw_state sw1 = Some k /\
        IVSwitchControl.Draw (sw1, g1) = Done (tt, (sw1, g2)))).
Proof.
  split; [reflexivity |]. split; [unfold UINT32_MAX; lia |].
  split; [reflexivity |].
  apply (switch_click_then_Draw (tk := term_toolkit)
           (one_param_plug one_d) sample_rect kNoParameter None
           (0 : @IColor term_toolkit) (16777215 : @IColor term_toolkit)
           4 kVertical (sample_switch 4 f_minus_0_75 zero_d) d_0_75
           one_f one_f no_mod no_calls);
    [reflexivity | unfold UINT32_MAX; lia | reflexivity].
Defined.

(** X11, witness: the sample switch with two states, clicked at 0. *)
Lemma two_state_switch_click_then_Draw_witness :
  IVSwitchControl.new (tk := term_toolkit)
    (one_param_plug one_d) sample_rect kNoParameter None 0 16777215 2 kVertical =
  Done (sample_switch 2 f_minus_0_5 zero_d) /\
  IButtonControlBase.mNumStates
    (IVSwitchControl.base (sample_switch 2 f_minus_0_5 zero_d)) = 2 /\
  exists sw1 g1,
    IVSwitchControl.OnMouseDown one_f one_f no_mod
      (IVSwitchControl.set_mValue zero_d
         (sample_switch 2 f_minus_0_5 zero_d), no_calls) =
    Done (tt, (sw1, g1)) /\
    IVSwitchControl.Draw_state sw1 =
      Some (if SFeqb zero_d zero_d then -2 else 0).
Proof.
  split; [reflexivity |]. split; [reflexivity |].
  apply (two_state_switch_click_then_Draw (tk := term_toolkit)
           (one_param_plug one_d) sample_rect kNoParameter None
           (0 : @IColor term_toolkit) (16777215 : @IColor term_toolkit)
           2 kVertical (sample_switch 2 f_minus_0_5 zero_d) zero_d
           one_f one_f no_mod no_calls);
    reflexivity.
Defined.

(** X12, witness: the sample switch with four states at NaN. *)
Lemma switch_nan_is_absorbing_witness :
  IControl.mValue
    (IVSwitchControl.control (sample_switch 4 f_minus_0_75 S754_nan))
  = S754_nan /\
  IVSwitchControl.Draw (sample_switch 4 f_minus_0_75 S754_nan, no_calls) =
    Undefined /\
  exists sw1 g1,
    IVSwitchControl.OnMouseDown one_f one_f no_mod
      (sample_switch 4 f_minus_0_75 S754_nan, no_calls) =
    Done (tt, (sw1, g1)) /\
    IControl.mValue (IVSwitchControl.control sw1) =
      if IButtonControlBase.mNumStates
           (IVSwitchControl.base (sample_switch 4 f_minus_0_75 S754_nan)) =? 2
      then zero_d else S754_nan.
Proof.
  split; [reflexivity |].
  apply (switch_nan_is_absorbing (tk := term_toolkit)
           (sample_switch 4 f_minus_0_75 S754_nan) one_f one_f no_mod
           no_calls).
  reflexivity.
Defined.

(* ===================================================================== *)
(** ** Series of clicks *)
(* ===================================================================== *)

Section Series.
Context {tk : Toolkit}.
Import IButtonControlBase.

(** The property of a value that [OnMouseDown] establishes and keeps. *)
Lemma OnMouseDown_series_keeps events :
  forall (c : t) (g : IGraphics),
    is_double (IControl.mValue (base c)) = true ->
    (IControl.mValue (base c) = S754_nan \/
     in_unit_interval (IControl.mValue (base c)) = true) ->
    exists c' g',
      OnMouseDown_series events (c, g) = Done (tt, (c', g')) /\
      mNumStates c' = mNumStates c /\
      is_double (IControl.mValue (base c')) = true /\
      (IControl.mValue (base c') = S754_nan \/
       in_unit_interval (IControl.mValue (base c')) = true).
Proof.
  induction events as [| [[x y] mod_] rest IH]; intros c g Hv Hr.
  - exists c, g. repeat split; assumption.
  - cbn [OnMouseDown_series].
    destruct (OnMouseDown_value_range x y mod_ c g Hv)
      as [c1 [g1 [Hrun [Hv1 Hr1]]]].
    destruct (OnMouseDown_value x y mod_ c g) as [c1' [g1' [Hrun' [HN _]]]].
    rewrite Hrun in Hrun'. injection Hrun' as <- <-.
    rewrite Hrun. cbn [obind snd].
    destruct (IH c1 g1 Hv1 Hr1) as [c' [g' [Hs [HN' [Hv' Hr']]]]].
    exists c', g'. split; [exact Hs |]. split; [congruence |].
    split; assumption.
Qed.

(** X14: after any series of at least one click on a button whose value
    is a well-formed [double], the state count is unchanged and the value
    is NaN or lies in [[0, 1]]. *)
Theorem OnMouseDown_series_value_range events (c : t) (g : IGraphics) :
  events <> [] ->
  is_double (IControl.mValue (base c)) = true ->
  exists c' g',
    OnMouseDown_series events (c, g) = Done (tt, (c', g')) /\
    mNumStates c' = mNumStates c /\
    (IControl.mValue (base c') = S754_nan \/
     in_unit_interval (IControl.mValue (base c')) = true).
Proof.
  intros Hne Hv. destruct events as [| [[x y] mod_] rest]; [congruence |].
  cbn [OnMouseDown_series].
  destruct (OnMouseDown_value_range x y mod_ c g Hv)
    as [c1 [g1 [Hrun [Hv1 Hr1]]]].
  destruct (OnMouseDown_value x y mod_ c g) as [c1' [g1' [Hrun' [HN _]]]].
  rewrite Hrun in Hrun'. injection Hrun' as <- <-.
  rewrite Hrun. cbn [obind snd].
  destruct (OnMouseDown_series_keeps rest c1 g1 Hv1 Hr1)
    as [c' [g' [Hs [HN' [_ Hr']]]]].
  exists c', g'. split; [exact Hs |]. split; [congruence | exact Hr'].
Qed.

(** X15: on a button with two states whose value is 0 or 1, the value
    after a series of clicks is the first value when the number of clicks
    is even, and the other one when it is odd. *)
Theorem OnMouseDown_series_two_states events :
  forall (c : t) (g : IGraphics),
    mNumStates c = 2 ->
    IControl.mValue (base c) = zero_d \/ IControl.mValue (base c) = one_d ->
    exists c' g',
      OnMouseDown_series events (c, g) = Done (tt, (c', g')) /\
      IControl.mValue (base c') =
        if Nat.even (List.length events) then IControl.mValue (base c)
        else if SFeqb (IControl.mValue (base c)) zero_d then one_d
             else zero_d.
Proof.
  induction events as [| [[x y] mod_] rest IH]; intros c g HN Hv.
  - exists c, g. split; reflexivity.
  - cbn [OnMouseDown_series].
    destruct (OnMouseDown_value x y mod_ c g) as [c1 [g1 [Hrun [HN1 Hv1]]]].
    rewrite Hrun. cbn [obind snd].
    rewrite HN in Hv1. change (2 =? 2) with true in Hv1. cbv iota in Hv1.
    assert (Hv1' : IControl.mValue (base c1) = zero_d \/
                   IControl.mValue (base c1) = one_d).
    { rewrite Hv1. destruct (double_to_bool (IControl.mValue (base c)));
        [left | right]; reflexivity. }
    destruct (IH c1 g1 ltac:(congruence) Hv1') as [c' [g' [Hs Hval]]].
    exists c', g'. split; [exact Hs |]. rewrite Hval.
    cbn [List.length]. rewrite Nat.even_succ, <- Nat.negb_even.
    destruct (Nat.even (List.length rest)); cbn [negb].
    + rewrite Hv1, SFeqb_zero_d. reflexivity.
    + rewrite Hv1. destruct Hv as [-> | ->]; reflexivity.
Qed.

End Series.

(** X14, witness: two clicks on the sample button with four states. *)
Lemma OnMouseDown_series_value_range_witness :
  [(one_f, one_f, no_mod); (one_f, one_f, no_mod)] <> [] /\
  is_double
    (IControl.mValue (IButtonControlBase.base (sample_button 4 d_0_25)))
  = true /\
  exists c' g',
    OnMouseDown_series [(one_f, one_f, no_mod); (one_f, one_f, no_mod)]
      (sample_button 4 d_0_25, no_calls) = Done (tt, (c', g')) /\
    IButtonControlBase.mNumStates c' =
      IButtonControlBase.mNumStates (sample_button 4 d_0_25) /\
    (IControl.mValue (IButtonControlBase.base c') = S754_nan \/
     in_unit_interval (IControl.mValue (IButtonControlBase.base c')) = true).
Proof.
  split; [discriminate |]. split; [reflexivity |].
  apply (OnMouseDown_series_value_range (tk := term_toolkit)
           [(one_f, one_f, no_mod); (one_f, one_f, no_mod)]
           (sample_button 4 d_0_25) no_calls);
    [discriminate | reflexivity].
Defined.

(** X15, witness: three clicks on the sample button with two states. *)
Lemma OnMouseDown_series_two_states_witness :
  IButtonControlBase.mNumStates (sample_button 2 zero_d) = 2 /\
  (IControl.mValue (IButtonControlBase.base (sample_button 2 zero_d)) = zero_d \/
   IControl.mValue (IButtonControlBase.base (sample_button 2 zero_d)) = one_d) /\
  exists c' g',
    OnMouseDown_series
      [(one_f, one_f, no_mod); (one_f, one_f, no_mod); (one_f, one_f, no_mod)]
      (sample_button 2 zero_d, no_calls) = Done (tt, (c', g')) /\
    IControl.mValue (IButtonControlBase.base c') =
      if Nat.even 3
      then IControl.mValue (IButtonControlBase.base (sample_button 2 zero_d))
      else if SFeqb
                (IControl.mValue
                   (IButtonControlBase.base (sample_button 2 zero_d)))
                zero_d
           then one_d else zero_d.
Proof.
  split; [reflexivity |]. split; [left; reflexivity |].
  apply (OnMouseDown_series_two_states (tk := term_toolkit)
           [(one_f, one_f, no_mod); (one_f, one_f, no_mod);
            (one_f, one_f, no_mod)]
           (sample_button 2 zero_d) no_calls);
    [reflexivity | left; reflexivity].
Defined.
